(** * pileupTools: a shallow embedding of [pileupTools.py]

    The script converts a GATK pileup into a PED/MAP pair.  This file
    embeds its functions ([allele_check], [find_max_base], [check_bases],
    [filter_line], [pileup_ok] and the record loop of
    [parse_pileup_file]) and proves properties of them.

    Modelling conventions.
    - A Python [str] is a [string] of 8-bit characters (pileup files are
      ASCII; the script runs under Python 2, where a [str] is a string
      of bytes, and under Python 3).  A character of a [str] is a [str]
      of length one, as in Python.  Upper-casing is modelled on these
      characters; as it need not keep the length of a string that is
      not ASCII, the lengths compared below are those of the upper-cased
      field, as in the script, never those of the field itself.
    - A Python [int] is a [Z].
    - The record built by [filter_line] is a Python [dict]: a finite map
      from [string] keys to Python values, stored in a heap and handled
      through its address, since [check_bases] mutates it in place.
    - Printing, the two output files, the heap and the state of the
      [random] module form the [world]; a computation maps a world to an
      outcome (a value or a raised exception) and a new world. *)

From Stdlib Require Import ZArith Lia List Ascii String Bool Arith DecimalString Sorted.
From stdpp Require Import base gmap strings list fin_maps.

Import ListNotations.
Local Open Scope string_scope.
Local Open Scope Z_scope.

(** ** Python values *)

Module Py.

(** The values the script stores in a record: strings, and the pair of
  expected alleles. *)
Inductive value : Type :=
| PStr (s : string)
| PTuple (a b : string).

#[global] Instance value_eq_dec : EqDecision value.
Proof. solve_decision. Defined.

(** The exceptions the modelled code can raise. *)
Inductive exn : Type :=
| SystemExit (msg : string)
| KeyError (key : string)
| IndexError
| TypeError.

Inductive outcome (A : Type) : Type :=
| Ok (a : A)
| Raise (e : exn).
Arguments Ok {A} a.
Arguments Raise {A} e.

Definition loc := nat.

(** A dict and the heap of dicts. *)
Abbreviation dict := (gmap string value).
Abbreviation heap := (gmap loc (gmap string value)).

Record world : Type := World {
w_heap : heap;                (* the dicts allocated so far *)
w_stdout : list string;       (* lines printed, oldest first *)
w_map : list string;          (* strings written to the MAP file *)
w_ped : list string;          (* strings written to the PED file *)
w_rng : nat -> nat;           (* the n-th raw draw of the generator *)
w_draws : nat                 (* how many draws were made *)
}.

(** Computations: state passing with exceptions.  The world reached
  when an exception is raised is kept (what was printed or written
  before stays so). *)
Definition M (A : Type) : Type := world -> outcome A * world.

Definition ret {A} (a : A) : M A := fun w => (Ok a, w).
Definition raise {A} (e : exn) : M A := fun w => (Raise e, w).
Definition bind {A B} (m : M A) (k : A -> M B) : M B :=
fun w => match m w with
         | (Ok a, w') => k a w'
         | (Raise e, w') => (Raise e, w')
         end.

End Py.
Import Py.

Declare Scope py_scope.
Delimit Scope py_scope with py.
Notation "'let*' x ':=' m 'in' k" := (bind m (fun x => k))
  (at level 10, x name, m at level 100, k at level 200) : py_scope.
Local Open Scope py_scope.

(** ** Python string operations *)

Module Str.

(** [ord(c)] of a character. *)
Definition ord (c : ascii) : Z := Z.of_nat (nat_of_ascii c).

(** [a in b] on strings: [a] occurs in [b] as a substring. *)
Fixpoint contains (sub s : string) : bool :=
String.prefix sub s ||
match s with
| EmptyString => false
| String _ s' => contains sub s'
end.

(** [s.upper()]: the letters [a]..[z] become [A]..[Z]; the other
  8-bit characters stay.  What is proved of the alleles of a record is
  stated of the upper-cased field as a whole, and does not rest on
  upper-casing keeping the length of a string. *)
Definition upper_char (c : ascii) : ascii :=
let n := nat_of_ascii c in
if (97 <=? n)%nat && (n <=? 122)%nat then ascii_of_nat (n - 32) else c.

Fixpoint upper (s : string) : string :=
match s with
| EmptyString => EmptyString
| String c s' => String (upper_char c) (upper s')
end.

(** [s.replace(old, new)] for a non-empty [old]: one pass from the
  left; where [old] starts, [new] is emitted and the scan goes on
  after the occurrence ([skip] counts the characters of the occurrence
  still to pass over). *)
Fixpoint replace_from (old new : string) (skip : nat) (s : string) : string :=
match s with
| EmptyString => EmptyString
| String c s' =>
    match skip with
    | S k => replace_from old new k s'
    | O =>
        if String.prefix old s
        then new ++ replace_from old new (String.length old - 1) s'
        else String c (replace_from old new 0 s')
    end
end.

(** With an empty [old], Python puts [new] before every character and at
  the end. *)
Fixpoint interleave (new s : string) : string :=
match s with
| EmptyString => new
| String c s' => new ++ String c (interleave new s')
end.

Definition replace (old new s : string) : string :=
match old with
| EmptyString => interleave new s
| String _ _ => replace_from old new 0 s
end.

(** [s.rstrip(chars)]: the longest suffix made of characters that
  satisfy [strip] is dropped. *)
Fixpoint rstrip_by (strip : ascii -> bool) (s : string) : string :=
match s with
| EmptyString => EmptyString
| String c s' =>
    match rstrip_by strip s' with
    | EmptyString => if strip c then EmptyString else String c EmptyString
    | r => String c r
    end
end.

(** The whitespace of [str.rstrip()]: space, tab, newline, vertical tab,
  form feed and carriage return. *)
Definition is_space (c : ascii) : bool :=
let n := nat_of_ascii c in
(n =? 32)%nat || ((9 <=? n)%nat && (n <=? 13)%nat).

Definition rstrip (s : string) : string := rstrip_by is_space s.

Definition rstrip_chars (chars s : string) : string :=
rstrip_by (fun c => existsb (Ascii.eqb c) (list_ascii_of_string chars)) s.

(** [s.split(sep)] for a separator of one character: the pieces
  between the separators, empty pieces included; never the empty
  list. *)
Fixpoint split (sep : ascii) (s : string) : list string :=
match s with
| EmptyString => [EmptyString]
| String c s' =>
    if Ascii.eqb c sep then EmptyString :: split sep s'
    else match split sep s' with
         | piece :: rest => String c piece :: rest
         | [] => [String c EmptyString]
         end
end.

(** [repr(s)] of a [str] and the hexadecimal escapes it uses. *)
Definition hex_digit (n : nat) : ascii :=
if (n <? 10)%nat then ascii_of_nat (48 + n) else ascii_of_nat (87 + n).

Definition quote_for (s : string) : ascii :=
if contains "'" s && negb (contains (String (ascii_of_nat 34) EmptyString) s)
then ascii_of_nat 34 else "'"%char.

Definition repr_char (quote c : ascii) : string :=
let n := nat_of_ascii c in
if Ascii.eqb c quote || Ascii.eqb c "\"%char then String "\"%char (String c EmptyString)
else if (n =? 9)%nat then "\t"
else if (n =? 10)%nat then "\n"
else if (n =? 13)%nat then "\r"
else if (n <? 32)%nat || (127 <=? n)%nat
     then String "\"%char (String "x"%char
            (String (hex_digit (n / 16)) (String (hex_digit (n mod 16)) EmptyString)))
else String c EmptyString.

Fixpoint repr_body (quote : ascii) (s : string) : string :=
match s with
| EmptyString => EmptyString
| String c s' => repr_char quote c ++ repr_body quote s'
end.

Definition repr (s : string) : string :=
let q := quote_for s in
String q (repr_body q s ++ String q EmptyString).

End Str.

(** ** Operations on Python values and on the world *)

Definition TAB : ascii := "009"%char.
Definition NL : ascii := "010"%char.

Definition one_char (c : ascii) : string := String c EmptyString.

(** [len(v)]. *)
Definition py_len (v : value) : nat :=
  match v with
  | PStr s => String.length s
  | PTuple _ _ => 2%nat
  end.

(** [v[i]] for an index [i >= 0]. *)
Definition py_getitem (v : value) (i : nat) : M value :=
  match v with
  | PStr s =>
      match String.get i s with
      | Some c => ret (PStr (one_char c))
      | None => raise IndexError
      end
  | PTuple a b =>
      match i with
      | O => ret (PStr a)
      | S O => ret (PStr b)
      | _ => raise IndexError
      end
  end.

(** [ord(v)]: defined on a string of length one. *)
Definition py_ord (v : value) : M Z :=
  match v with
  | PStr (String c EmptyString) => ret (Str.ord c)
  | _ => raise TypeError
  end.

(** [s + v] for a string [s]. *)
Definition str_add (s : string) (v : value) : M string :=
  match v with
  | PStr t => ret (s ++ t)
  | PTuple _ _ => raise TypeError
  end.

(** [v in s] for a string [s]. *)
Definition py_in_str (v : value) (s : string) : M bool :=
  match v with
  | PStr t => ret (Str.contains t s)
  | PTuple _ _ => raise TypeError
  end.

(** What [str.format] puts in place of a plain field. *)
Definition py_format (v : value) : string :=
  match v with
  | PStr s => s
  | PTuple a b => "(" ++ Str.repr a ++ ", " ++ Str.repr b ++ ")"
  end.

(** The elements a [for] loop (or [Counter]) sees. *)
Definition py_iter (v : value) : list value :=
  match v with
  | PStr s => map (fun c => PStr (one_char c)) (list_ascii_of_string s)
  | PTuple a b => [PStr a; PStr b]
  end.

(** [l[i]] on a list. *)
Definition list_getitem {A} (l : list A) (i : nat) : M A :=
  match nth_error l i with
  | Some x => ret x
  | None => raise IndexError
  end.

Definition set_heap (h : heap) (w : world) : world :=
  World h (w_stdout w) (w_map w) (w_ped w) (w_rng w) (w_draws w).

(** [print(s)]. *)
Definition print (s : string) : M unit :=
  fun w => (Ok tt, World (w_heap w) (w_stdout w ++ [s]) (w_map w) (w_ped w)
                         (w_rng w) (w_draws w)).

(** [map_file.write(s)] and [ped_file.write(s)]. *)
Definition map_write (s : string) : M unit :=
  fun w => (Ok tt, World (w_heap w) (w_stdout w) (w_map w ++ [s]) (w_ped w)
                         (w_rng w) (w_draws w)).

Definition ped_write (s : string) : M unit :=
  fun w => (Ok tt, World (w_heap w) (w_stdout w) (w_map w) (w_ped w ++ [s])
                         (w_rng w) (w_draws w)).

(** A dict literal: the dict is stored at an address not in use. *)
Definition dict_new (d : gmap string value) : M loc :=
  fun w => let r := fresh (dom (w_heap w)) in
           (Ok r, set_heap (<[r := d]> (w_heap w)) w).

(** [d[key]].  An address outside the heap denotes no object; no
    program holds one (the loop of this script only uses the address
    [dict_new] has just returned), and reading through it is given the
    outcome [TypeError]. *)
Definition dict_get (r : loc) (key : string) : M value :=
  fun w => match w_heap w !! r with
           | Some d => match d !! key with
                       | Some v => (Ok v, w)
                       | None => (Raise (KeyError key), w)
                       end
           | None => (Raise TypeError, w)
           end.

(** [d[key] = v]: the dict at the address is updated in place. *)
Definition dict_set (r : loc) (key : string) (v : value) : M unit :=
  fun w => match w_heap w !! r with
           | Some d => (Ok tt, set_heap (<[r := <[key := v]> d]> (w_heap w)) w)
           | None => (Raise TypeError, w)
           end.

(** [random.choice(l)]: an element at an index below [len(l)], taken
    from the generator's next draw; [IndexError] on an empty list. *)
Definition random_choice {A} (l : list A) : M A :=
  fun w => match nth_error l (w_rng w (w_draws w) mod length l)%nat with
           | Some x => (Ok x, World (w_heap w) (w_stdout w) (w_map w) (w_ped w)
                                    (w_rng w) (S (w_draws w)))
           | None => (Raise IndexError, w)
           end.

(** [for x in l: body], with the variables the body assigns as the
    loop state. *)
Fixpoint for_each {A S} (l : list A) (body : A -> S -> M S) (s : S) : M S :=
  match l with
  | [] => ret s
  | x :: l' => let* s' := body x s in for_each l' body s'
  end.

(** ** The functions of the script *)

(** [allele_check(snp_tuple, allele)]; the [or] evaluates its second
    operand only when the first is false. *)
Definition allele_check (snp_tuple allele : value) : M bool :=
  let* first := py_getitem snp_tuple 0 in
  if bool_decide (allele = first) then ret true
  else
    let* second := py_getitem snp_tuple 1 in
    if bool_decide (allele = second) then ret true else ret false.

(** [Counter(l)]: the distinct elements with their numbers of
    occurrences, in the order of first occurrence (the order of a dict
    of Python 3.7 and later; an older dict gives some other order, which
    no theorem below depends on). *)
Fixpoint count_add (x : value) (m : list (value * nat)) : list (value * nat) :=
  match m with
  | [] => [(x, 1%nat)]
  | (y, n) :: m' =>
      if bool_decide (x = y) then (y, S n) :: m' else (y, n) :: count_add x m'
  end.

Definition Counter (l : list value) : list (value * nat) :=
  fold_left (fun m x => count_add x m) l [].

(** [most_common()]: a stable sort by decreasing count. *)
Fixpoint insert_desc (x : value * nat) (l : list (value * nat)) : list (value * nat) :=
  match l with
  | [] => [x]
  | y :: l' => if (snd y <=? snd x)%nat then x :: y :: l' else y :: insert_desc x l'
  end.

Definition most_common (m : list (value * nat)) : list (value * nat) :=
  fold_right insert_desc [] m.

(** [find_max_base(alleles)]. *)
Definition find_max_base (alleles : value) : M value :=
  let allele_counts := most_common (Counter (py_iter alleles)) in
  let* top := list_getitem allele_counts 0 in
  let max_count := snd top in
  let* max_alleles :=
    for_each allele_counts
      (fun each_allele max_alleles =>
         if (snd each_allele =? max_count)%nat
         then ret (max_alleles ++ [fst each_allele])%list
         else ret max_alleles)
      [] in
  random_choice max_alleles.

(** The body of the loop of [check_bases], on the loop variables
    [(new_alleles, new_quals)]. *)
Definition check_bases_body (current_quals current_alleles : value)
    (base_qual_cutoff : Z) (i : nat) (acc : string * string) : M (string * string) :=
  let '(new_alleles, new_quals) := acc in
  let* q := py_getitem current_quals i in
  let* o := py_ord q in
  let base_qual := o - 33 in
  if base_qual_cutoff <=? base_qual then
    let* a := py_getitem current_alleles i in
    let* canonical := py_in_str a "AGTC" in
    if canonical then
      let* a' := py_getitem current_alleles i in
      let* new_alleles' := str_add new_alleles a' in
      let* q' := py_getitem current_quals i in
      let* new_quals' := str_add new_quals q' in
      ret (new_alleles', new_quals')
    else ret acc
  else ret acc.

(** [check_bases(line_dict, base_qual_cutoff)]. *)
Definition check_bases (line_dict : loc) (base_qual_cutoff : Z) : M loc :=
  let* current_quals := dict_get line_dict "base_qualities" in
  let* current_alleles := dict_get line_dict "alleles" in
  if negb (py_len current_quals =? py_len current_alleles)%nat then
    let* name := dict_get line_dict "snp_name" in
    let* msg := str_add "Error: Quals and bases differ at " name in
    raise (SystemExit (msg ++ " stopping."))
  else
    let* acc :=
      for_each (seq 0 (py_len current_quals))
        (check_bases_body current_quals current_alleles base_qual_cutoff)
        (EmptyString, EmptyString) in
    let* _ := dict_set line_dict "base_qualities" (PStr (snd acc)) in
    let* _ := dict_set line_dict "alleles" (PStr (fst acc)) in
    ret line_dict.

(** The chromosome name of [filter_line]. *)
Definition chrom_of (field0 : string) : string :=
  Str.replace "Chr" "" (Str.replace "OAR" "" (Str.replace "chr" "" field0)).

(** [filter_line(pileup_line_list)]. *)
Definition filter_line (pileup_line_list : list string) : M loc :=
  let* field6 := list_getitem pileup_line_list 6 in
  let info_cols := Str.split TAB field6 in
  let* short_snp_name := list_getitem info_cols 2 in
  let* snp_a := list_getitem info_cols 3 in
  let* info4 := list_getitem info_cols 4 in
  let snp_b := Str.rstrip_chars "]" info4 in
  let* field0 := list_getitem pileup_line_list 0 in
  let* field1 := list_getitem pileup_line_list 1 in
  let* field2 := list_getitem pileup_line_list 2 in
  let* field3 := list_getitem pileup_line_list 3 in
  let* field4 := list_getitem pileup_line_list 4 in
  dict_new
    (<["snps" := PTuple snp_a snp_b]>
       (<["snp_name" := PStr short_snp_name]>
          (<["base_qualities" := PStr field4]>
             (<["alleles" := PStr (Str.upper field3)]>
                (<["ref_base" := PStr field2]>
                   (<["pos" := PStr field1]>
                      (<["chrom" := PStr (chrom_of field0)]> empty))))))).

(** [pileup_ok(pileup_line_list)]. *)
Definition malformed : exn := SystemExit "Error: Malformed pileup file stopping.".

Definition pileup_ok (pileup_line_list : list string) : M bool :=
  if (length pileup_line_list =? 7)%nat then ret true
  else if (length pileup_line_list =? 6)%nat then
    let* field0 := list_getitem pileup_line_list 0 in
    if String.eqb field0 "[REDUCE" then
      let* field5 := list_getitem pileup_line_list 5 in
      let* _ := print ("NB: GATK pileup reporting reduced output stating only "
                         ++ field5 ++ " SNPs used.") in
      ret false
    else raise malformed
  else raise malformed.

(** The body of the loop of [parse_pileup_file], on the two counters
    [(ct_good, ct_bad)]. *)
Definition parse_pileup_record (base_min_quality : Z) (each_record : string)
    (counters : Z * Z) : M (Z * Z) :=
  let '(ct_good, ct_bad) := counters in
  let pileup_cols := Str.split " " (Str.rstrip each_record) in
  let* ok := pileup_ok pileup_cols in
  if ok then
    let* line_info := filter_line pileup_cols in
    let* line_info := check_bases line_info base_min_quality in
    let* alleles := dict_get line_info "alleles" in
    if negb (py_len alleles =? 0)%nat then
      let* alleles := dict_get line_info "alleles" in
      let* allele_called := find_max_base alleles in
      let* snps := dict_get line_info "snps" in
      let* matched := allele_check snps allele_called in
      if matched then
        let a := py_format allele_called in
        let* _ := ped_write (" " ++ a ++ " " ++ a) in
        let* c := dict_get line_info "chrom" in
        let* s := dict_get line_info "snp_name" in
        let* p := dict_get line_info "pos" in
        let* _ := map_write (py_format c ++ one_char TAB ++ py_format s ++ one_char TAB
                               ++ "0" ++ one_char TAB ++ py_format p ++ one_char NL) in
        ret (ct_good + 1, ct_bad)
      else
        let* s := dict_get line_info "snp_name" in
        let* _ := print (py_format s ++ " possible tri-allele removed") in
        ret (ct_good, ct_bad + 1)
    else
      let* s := dict_get line_info "snp_name" in
      let* _ := print (py_format s ++ " failed filters") in
      ret (ct_good, ct_bad + 1)
  else ret (ct_good, ct_bad).

(** The loop over the lines of the input. *)
Definition parse_pileup_lines (base_min_quality : Z) (records : list string)
    (counters : Z * Z) : M (Z * Z) :=
  for_each records (parse_pileup_record base_min_quality) counters.

(** The format [{:,}] of an [int]: decimal digits in groups of three. *)
Fixpoint group_thousands (rev_digits : list ascii) (k : nat) : list ascii :=
  match rev_digits with
  | [] => []
  | c :: l =>
      match k with
      | O => ","%char :: c :: group_thousands l 2
      | S k' => c :: group_thousands l k'
      end
  end.

Definition format_thousands (z : Z) : string :=
  let digits := list_ascii_of_string (NilZero.string_of_uint (N.to_uint (Z.abs_N z))) in
  let grouped := string_of_list_ascii (rev (group_thousands (rev digits) 3)) in
  if z <? 0 then String "-"%char grouped else grouped.

(** [open(..., 'wt')] of the two output files: both start empty. *)
Definition open_outputs : M unit :=
  fun w => (Ok tt, World (w_heap w) (w_stdout w) [] [] (w_rng w) (w_draws w)).

(** [parse_pileup_file(pileup_file, sample, base_min_quality)];
    [records] are the lines the input file holds. *)
Definition parse_pileup_file (pileup_file : string) (records : list string)
    (sample : string) (base_min_quality : Z) : M unit :=
  let file_base := Str.replace ".pileup" "" pileup_file in
  let* _ := open_outputs in
  let* _ := ped_write (sample ++ " " ++ sample ++ " 0 0 0 -9") in
  let* counters := parse_pileup_lines base_min_quality records (0, 0) in
  let* _ := ped_write (one_char NL) in
  print ("Analysis finished wrote " ++ format_thousands (fst counters)
           ++ " SNPs to output files removed " ++ format_thousands (snd counters)
           ++ "." ++ one_char NL ++ "Output PED ---> " ++ file_base ++ ".ped"
           ++ one_char NL ++ "Output MAP ---> " ++ file_base ++ ".map").

(** An initial world for the examples: nothing allocated, printed or
    written, and a generator whose n-th draw is n. *)
Definition world0 : world := World empty [] [] [] (fun n => n) 0.

(** * Properties *)

(** ** Running a computation step by step *)

Section Steps.

Context {A B : Type}.

Lemma bind_ok (m : M A) (k : A -> M B) (w w' : world) (a : A) :
  m w = (Ok a, w') -> bind m k w = k a w'.
Proof. intros H. unfold bind. rewrite H. reflexivity. Qed.

Lemma bind_raise (m : M A) (k : A -> M B) (w w' : world) (e : exn) :
  m w = (Raise e, w') -> bind m k w = (Raise e, w').
Proof. intros H. unfold bind. rewrite H. reflexivity. Qed.

End Steps.

Lemma dict_get_ok (r : loc) (key : string) (d : gmap string value) (v : value)
      (w : world) :
  w_heap w !! r = Some d -> d !! key = Some v -> dict_get r key w = (Ok v, w).
Proof. intros Hr Hk. unfold dict_get. rewrite Hr, Hk. reflexivity. Qed.

Lemma dict_set_ok (r : loc) (key : string) (d : gmap string value) (v : value)
      (w : world) :
  w_heap w !! r = Some d ->
  dict_set r key v w = (Ok tt, set_heap (<[r := <[key := v]> d]> (w_heap w)) w).
Proof. intros Hr. unfold dict_set. rewrite Hr. reflexivity. Qed.

(** ** The consistency checker *)

Section AlleleCheck.

Lemma allele_check_pair (a b x : string) (w : world) :
  allele_check (PTuple a b) (PStr x) w
  = (Ok (String.eqb x a || String.eqb x b), w).
Proof.
  unfold allele_check, bind, py_getitem, ret.
  destruct (String.eqb_spec x a) as [-> | Ha].
  - rewrite bool_decide_eq_true_2 by reflexivity. reflexivity.
  - rewrite bool_decide_eq_false_2 by congruence.
    destruct (String.eqb_spec x b) as [-> | Hb].
    + rewrite bool_decide_eq_true_2 by reflexivity. reflexivity.
    + rewrite bool_decide_eq_false_2 by congruence. reflexivity.
Qed.

(** C4: on a pair of expected alleles, [allele_check] returns, in
    every world and without changing it, the boolean that is true
    exactly when the called allele is, character for character, the
    first or the second expected allele; nothing is normalised (a
    lower-case [a] does not match [A]); with the pair (A, G), A and G
    are accepted and T is rejected. *)
Theorem allele_check_membership :
  (forall (a b x : string) (w : world),
      exists r : bool,
        allele_check (PTuple a b) (PStr x) w = (Ok r, w)
        /\ (r = true <-> x = a \/ x = b))
  /\ (forall w, allele_check (PTuple "A" "G") (PStr "A") w = (Ok true, w))
  /\ (forall w, allele_check (PTuple "A" "G") (PStr "G") w = (Ok true, w))
  /\ (forall w, allele_check (PTuple "A" "G") (PStr "T") w = (Ok false, w))
  /\ (forall w, allele_check (PTuple "A" "G") (PStr "a") w = (Ok false, w)).
Proof.
  split; [| repeat split; intros w; apply allele_check_pair].
  intros a b x w. exists (String.eqb x a || String.eqb x b).
  split; [apply allele_check_pair |].
  rewrite orb_true_iff, !String.eqb_eq. reflexivity.
Qed.

End AlleleCheck.

(** ** The line validator *)

Section LineValidator.

(** The world after [print(s)]. *)
Definition printed (s : string) (w : world) : world :=
  World (w_heap w) (w_stdout w ++ [s]) (w_map w) (w_ped w) (w_rng w) (w_draws w).

Definition reduce_notice (count : string) : string :=
  "NB: GATK pileup reporting reduced output stating only " ++ count ++ " SNPs used.".

(** The shape of a truncation marker: six fields, the first one the
    literal [[REDUCE]. *)
Definition is_marker (l : list string) : Prop :=
  length l = 6%nat /\ nth_error l 0 = Some "[REDUCE".

Lemma pileup_ok_seven (l : list string) (w : world) :
  length l = 7%nat -> pileup_ok l w = (Ok true, w).
Proof. intros H. unfold pileup_ok. rewrite H. reflexivity. Qed.

Lemma pileup_ok_marker (l : list string) (w : world) :
  is_marker l ->
  exists count, nth_error l 5 = Some count
                /\ pileup_ok l w = (Ok false, printed (reduce_notice count) w).
Proof.
  intros [Hlen H0].
  destruct l as [| f0 [| f1 [| f2 [| f3 [| f4 [| f5 [| f6 l]]]]]]];
    simpl in Hlen; try discriminate.
  simpl in H0. injection H0 as ->.
  exists f5. split; [reflexivity |].
  reflexivity.
Qed.

Lemma pileup_ok_malformed (l : list string) (w : world) :
  length l <> 7%nat -> ~ is_marker l -> pileup_ok l w = (Raise malformed, w).
Proof.
  intros H7 Hm. unfold pileup_ok.
  destruct (Nat.eqb_spec (length l) 7) as [E | _]; [contradiction |].
  destruct (Nat.eqb_spec (length l) 6) as [E | _]; [| reflexivity].
  destruct l as [| f0 l]; [discriminate |].
  unfold bind, list_getitem, ret.
  change (nth_error (f0 :: l) 0) with (Some f0). cbv beta iota.
  destruct (String.eqb_spec f0 "[REDUCE") as [-> | Hne]; [| reflexivity].
  exfalso. apply Hm. split; [exact E | reflexivity].
Qed.

(** An exception raised by the body on the first element ends the
    loop: the rest is not run. *)
Lemma for_each_raise {A S} (body : A -> S -> M S) x l s w e w' :
  body x s w = (Raise e, w') -> for_each (x :: l) body s w = (Raise e, w').
Proof. intros H. simpl. unfold bind. rewrite H. reflexivity. Qed.

(** C3: [pileup_ok] has three outcomes.  Seven fields: true, nothing
    printed.  Six fields with [[REDUCE] first: false, after printing
    the notice that carries field 5.  Any other shape: the exception
    [SystemExit] with the malformed-file message, which also ends the
    loop over the lines at that line, whatever follows it. *)
Theorem pileup_ok_three_ways (l : list string) (w : world) :
  (length l = 7%nat -> pileup_ok l w = (Ok true, w))
  /\ (is_marker l ->
      exists count, nth_error l 5 = Some count
                    /\ pileup_ok l w = (Ok false, printed (reduce_notice count) w))
  /\ (length l <> 7%nat -> ~ is_marker l ->
      pileup_ok l w = (Raise malformed, w)
      /\ forall q each_record rest counters,
          Str.split " " (Str.rstrip each_record) = l ->
          parse_pileup_lines q (each_record :: rest) counters w
          = (Raise malformed, w)).
Proof.
  split; [apply pileup_ok_seven |].
  split; [apply pileup_ok_marker |].
  intros H7 Hm. split; [apply pileup_ok_malformed; assumption |].
  intros q each_record rest [g b] Hl.
  apply for_each_raise. unfold parse_pileup_record, bind.
  rewrite Hl, (pileup_ok_malformed l w H7 Hm). reflexivity.
Qed.

Lemma pileup_ok_three_ways_witness :
  pileup_ok ["chr1"; "100"; "A"; "AG"; "FF"; "x"; "y"] world0 = (Ok true, world0)
  /\ (exists count,
         nth_error ["[REDUCE"; "a"; "b"; "c"; "d"; "12"] 5 = Some count
         /\ pileup_ok ["[REDUCE"; "a"; "b"; "c"; "d"; "12"] world0
            = (Ok false, printed (reduce_notice count) world0))
  /\ pileup_ok ["chr1"; "100"; "A"; "AG"; "FF"] world0 = (Raise malformed, world0).
Proof.
  split; [| split].
  - apply (proj1 (pileup_ok_three_ways _ world0)). reflexivity.
  - apply (proj1 (proj2 (pileup_ok_three_ways _ world0))).
    split; reflexivity.
  - apply (proj2 (proj2 (pileup_ok_three_ways _ world0))).
    + simpl. lia.
    + intros [H _]. discriminate H.
Defined.

End LineValidator.

(** ** Facts on strings *)

Section StringFacts.

Lemma str_app_cons (c : ascii) (s t : string) : String c s ++ t = String c (s ++ t).
Proof. reflexivity. Qed.

Lemma str_app_nil_l (s : string) : "" ++ s = s.
Proof. reflexivity. Qed.

Lemma str_app_assoc (s t u : string) : (s ++ t) ++ u = s ++ (t ++ u).
Proof.
  induction s as [| c s IH]; [reflexivity |].
  rewrite !str_app_cons, IH. reflexivity.
Qed.

Lemma str_app_nil_r (s : string) : s ++ "" = s.
Proof.
  induction s as [| c s IH]; [reflexivity |].
  rewrite str_app_cons, IH. reflexivity.
Qed.

Lemma str_length_app (s t : string) :
  String.length (s ++ t) = (String.length s + String.length t)%nat.
Proof.
  induction s as [| c s IH]; [reflexivity |].
  rewrite str_app_cons. simpl. rewrite IH. reflexivity.
Qed.

Lemma str_app_snoc (s t : string) (c : ascii) :
  s ++ String c t = (s ++ one_char c) ++ t.
Proof. rewrite str_app_assoc. reflexivity. Qed.

(** The character just after a prefix. *)
Lemma get_after_prefix (p s : string) (c : ascii) :
  String.get (String.length p) (p ++ String c s) = Some c.
Proof.
  induction p as [| d p IH]; [reflexivity |].
  rewrite str_app_cons. simpl. exact IH.
Qed.

Lemma get_length_none (s : string) (i : nat) :
  (String.length s <= i)%nat -> String.get i s = None.
Proof.
  revert i. induction s as [| c s IH]; intros i H; simpl in *; [reflexivity |].
  destruct i as [| i]; [lia |]. apply IH. lia.
Qed.

End StringFacts.

(** ** The quality filter *)

Section QualityFilter.

Variable cutoff : Z.

(** The four canonical nucleotide symbols. *)
Definition canonical (c : ascii) : bool :=
  existsb (Ascii.eqb c) ["A"; "G"; "T"; "C"]%char.

(** The test of the specification on an (allele, quality) pair. *)
Definition passes (a q : ascii) : bool :=
  (cutoff <=? Str.ord q - 33) && canonical a.

(** Whether index [i] is kept. *)
Definition kept (alleles quals : string) (i : nat) : bool :=
  match String.get i alleles, String.get i quals with
  | Some a, Some q => passes a q
  | _, _ => false
  end.

(** The characters of [s] at the indices [idx], in the order of
    [idx]. *)
Fixpoint pick (s : string) (idx : list nat) : string :=
  match idx with
  | [] => EmptyString
  | i :: idx' =>
      match String.get i s with
      | Some c => String c (pick s idx')
      | None => pick s idx'
      end
  end.

(** The kept indices, in increasing order. *)
Definition kept_indices (alleles quals : string) : list nat :=
  List.filter (kept alleles quals) (seq 0 (String.length quals)).

(** The filter as one pass over the two strings side by side. *)
Fixpoint keep_pairs (alleles quals : string) : string * string :=
  match alleles, quals with
  | String a alleles', String q quals' =>
      let r := keep_pairs alleles' quals' in
      if passes a q then (String a (fst r), String q (snd r)) else r
  | _, _ => (EmptyString, EmptyString)
  end.

Lemma canonical_iff (c : ascii) :
  canonical c = true <-> c = "A"%char \/ c = "G"%char \/ c = "T"%char \/ c = "C"%char.
Proof.
  unfold canonical. simpl. rewrite !orb_true_iff, !Ascii.eqb_eq.
  intuition congruence.
Qed.

(** On a single character, the substring test of the source is the
    membership among the four symbols. *)
Lemma contains_canonical (c : ascii) :
  Str.contains (one_char c) "AGTC" = canonical c.
Proof.
  unfold canonical, one_char. simpl.
  repeat match goal with
         | |- context [ascii_dec ?x ?y] =>
             destruct (ascii_dec x y) as [-> | ?]
         end;
    repeat match goal with
           | |- context [Ascii.eqb ?x ?y] =>
               destruct (Ascii.eqb_spec x y)
           end; try reflexivity; try congruence.
Qed.

Lemma passes_iff (a q : ascii) :
  passes a q = true
  <-> cutoff <= Str.ord q - 33
      /\ (a = "A"%char \/ a = "G"%char \/ a = "T"%char \/ a = "C"%char).
Proof.
  unfold passes. rewrite andb_true_iff, Z.leb_le, canonical_iff. reflexivity.
Qed.

(** One round of the loop of [check_bases] on two strings. *)
Lemma check_bases_body_str (quals alleles : string) (i : nat) (a q : ascii)
      (na nq : string) (w : world) :
  String.get i alleles = Some a ->
  String.get i quals = Some q ->
  check_bases_body (PStr quals) (PStr alleles) cutoff i (na, nq) w
  = (Ok (if passes a q then (na ++ one_char a, nq ++ one_char q) else (na, nq)), w).
Proof.
  intros Ha Hq. unfold check_bases_body, bind, py_getitem, passes.
  rewrite Hq. unfold ret at 1. cbv iota beta. unfold py_ord, one_char, ret at 1.
  cbv iota beta.
  destruct (cutoff <=? Str.ord q - 33); [| reflexivity].
  rewrite Ha. unfold ret at 1. cbv iota beta.
  unfold py_in_str, ret at 1. cbv iota beta.
  fold (one_char a). rewrite contains_canonical.
  destruct (canonical a); reflexivity.
Qed.

(** The loop of [check_bases], started after the prefixes [pa] and
    [pq] with the variables [(na, nq)], appends what [keep_pairs]
    keeps of the rest. *)
Lemma check_bases_loop (a2 : string) :
  forall (q2 pa pq na nq : string) (w : world),
    String.length a2 = String.length q2 ->
    String.length pa = String.length pq ->
    for_each (seq (String.length pq) (String.length q2))
      (check_bases_body (PStr (pq ++ q2)) (PStr (pa ++ a2)) cutoff) (na, nq) w
    = (Ok (na ++ fst (keep_pairs a2 q2), nq ++ snd (keep_pairs a2 q2)), w).
Proof.
  induction a2 as [| a a2 IH]; intros q2 pa pq na nq w Hlen Hp;
    destruct q2 as [| q q2]; try discriminate Hlen.
  - simpl. rewrite !str_app_nil_r. reflexivity.
  - simpl in Hlen. injection Hlen as Hlen.
    change (String.length (String q q2)) with (S (String.length q2)).
    rewrite <- cons_seq. cbn [for_each]. unfold bind at 1.
    rewrite (check_bases_body_str _ _ _ a q);
      [| rewrite <- Hp; apply get_after_prefix | apply get_after_prefix].
    cbv beta iota.
    rewrite (str_app_snoc pq q2 q), (str_app_snoc pa a2 a).
    replace (S (String.length pq)) with (String.length (pq ++ one_char q))
      by (rewrite str_length_app; simpl; lia).
    cbn [keep_pairs].
    destruct (passes a q); cbn [fst snd];
      (rewrite IH; [| exact Hlen | rewrite !str_length_app; simpl; lia]).
    + rewrite !str_app_assoc. reflexivity.
    + reflexivity.
Qed.

(** The world after [check_bases] has stored the two new strings in
    the dict [d] at address [r]. *)
Definition stored (r : loc) (d : gmap string value) (new_alleles new_quals : string)
    (w : world) : world :=
  set_heap (<[r := <["alleles" := PStr new_alleles]>
                      (<["base_qualities" := PStr new_quals]> d)]> (w_heap w)) w.

(** [check_bases] on a record whose two strings have the same
    length. *)
Lemma check_bases_keep_pairs (r : loc) (d : gmap string value)
      (alleles quals : string) (w : world) :
  w_heap w !! r = Some d ->
  d !! "alleles" = Some (PStr alleles) ->
  d !! "base_qualities" = Some (PStr quals) ->
  String.length alleles = String.length quals ->
  check_bases r cutoff w
  = (Ok r, stored r d (fst (keep_pairs alleles quals))
                      (snd (keep_pairs alleles quals)) w).
Proof.
  intros Hr Ha Hq Hlen. unfold check_bases.
  rewrite (bind_ok _ _ _ _ _ (dict_get_ok _ _ _ _ _ Hr Hq)).
  rewrite (bind_ok _ _ _ _ _ (dict_get_ok _ _ _ _ _ Hr Ha)).
  cbn [py_len]. rewrite <- Hlen, Nat.eqb_refl. cbn [negb].
  rewrite Hlen.
  pose proof (check_bases_loop alleles quals "" "" "" "" w Hlen eq_refl) as Hloop.
  rewrite !str_app_nil_l in Hloop. cbn [String.length] in Hloop.
  rewrite (bind_ok _ _ _ _ _ Hloop). cbn [fst snd].
  rewrite (bind_ok _ _ _ _ _ (dict_set_ok _ _ _ _ _ Hr)).
  erewrite bind_ok; [| apply dict_set_ok; cbn [set_heap w_heap]; apply lookup_insert_eq].
  unfold ret, stored, set_heap. cbn [w_heap w_stdout w_map w_ped w_rng w_draws].
  rewrite insert_insert_eq. reflexivity.
Qed.

(** [keep_pairs] keeps the characters at the kept indices. *)
Lemma keep_pairs_pick (a2 : string) :
  forall q2 pa pq : string,
    String.length a2 = String.length q2 ->
    String.length pa = String.length pq ->
    let idx := List.filter (kept (pa ++ a2) (pq ++ q2))
                 (seq (String.length pq) (String.length q2)) in
    keep_pairs a2 q2 = (pick (pa ++ a2) idx, pick (pq ++ q2) idx).
Proof.
  induction a2 as [| a a2 IH]; intros q2 pa pq Hlen Hp;
    destruct q2 as [| q q2]; try discriminate Hlen.
  - reflexivity.
  - simpl in Hlen. injection Hlen as Hlen.
    change (String.length (String q q2)) with (S (String.length q2)).
    rewrite <- cons_seq. cbn [List.filter keep_pairs].
    assert (Ga : String.get (String.length pq) (pa ++ String a a2) = Some a)
      by (rewrite <- Hp; apply get_after_prefix).
    assert (Gq : String.get (String.length pq) (pq ++ String q q2) = Some q)
      by apply get_after_prefix.
    assert (Hk : kept (pa ++ String a a2) (pq ++ String q q2) (String.length pq)
                 = passes a q) by (unfold kept; rewrite Ga, Gq; reflexivity).
    rewrite Hk.
    specialize (IH q2 (pa ++ one_char a) (pq ++ one_char q) Hlen).
    rewrite <- !str_app_snoc in IH.
    replace (String.length (pq ++ one_char q)) with (S (String.length pq)) in IH
      by (rewrite str_length_app; simpl; lia).
    cbn zeta in IH. rewrite IH by (rewrite !str_length_app; simpl; lia).
    destruct (passes a q); cbn [fst snd pick]; [| reflexivity].
    rewrite Ga, Gq. reflexivity.
Qed.

Lemma get_some_lt (s : string) (i : nat) (c : ascii) :
  String.get i s = Some c -> (i < String.length s)%nat.
Proof.
  intros H. destruct (Nat.lt_ge_cases i (String.length s)) as [Hlt | Hge];
    [exact Hlt |].
  rewrite (get_length_none s i Hge) in H. discriminate.
Qed.

Lemma seq_increasing (k n : nat) : StronglySorted lt (seq k n).
Proof.
  revert k. induction n as [| n IH]; intros k; simpl; constructor.
  - apply IH.
  - apply List.Forall_forall. intros x Hx. apply in_seq in Hx. lia.
Qed.

Lemma filter_increasing (f : nat -> bool) (l : list nat) :
  StronglySorted lt l -> StronglySorted lt (List.filter f l).
Proof.
  induction 1 as [| x l Hl IH Hx]; simpl; [constructor |].
  destruct (f x); [| exact IH].
  constructor; [exact IH |].
  apply List.Forall_forall. intros y Hy. apply List.filter_In in Hy as [Hy _].
  rewrite List.Forall_forall in Hx. apply Hx, Hy.
Qed.

(** C1: on a record whose alleles and base qualities are strings of
    the same length, [check_bases] returns the record with the two
    strings replaced by their characters at the kept indices, taken
    in increasing order of index; an index is kept exactly when the
    quality character there decodes ([ord] minus 33) to at least the
    threshold and the allele there is one of A, G, T, C. *)
Theorem check_bases_keeps_passing_pairs (r : loc) (d : gmap string value)
        (alleles quals : string) (w : world) :
  w_heap w !! r = Some d ->
  d !! "alleles" = Some (PStr alleles) ->
  d !! "base_qualities" = Some (PStr quals) ->
  String.length alleles = String.length quals ->
  let idx := kept_indices alleles quals in
  check_bases r cutoff w
  = (Ok r, stored r d (pick alleles idx) (pick quals idx) w)
  /\ StronglySorted lt idx
  /\ (forall (i : nat) (a q : ascii),
         String.get i alleles = Some a ->
         String.get i quals = Some q ->
         (In i idx
          <-> cutoff <= Str.ord q - 33
              /\ (a = "A"%char \/ a = "G"%char \/ a = "T"%char \/ a = "C"%char)))
  /\ (forall i : nat, In i idx -> (i < String.length alleles)%nat).
Proof.
  intros Hr Ha Hq Hlen idx. split; [| split; [| split]].
  - rewrite (check_bases_keep_pairs r d alleles quals w Hr Ha Hq Hlen).
    pose proof (keep_pairs_pick alleles quals "" "" Hlen eq_refl) as Hp.
    cbn zeta in Hp. rewrite !str_app_nil_l in Hp. cbn [String.length] in Hp.
    fold (kept_indices alleles quals) in Hp. rewrite Hp. reflexivity.
  - apply filter_increasing, seq_increasing.
  - intros i a q Gi Gq. unfold idx, kept_indices.
    rewrite List.filter_In, in_seq. unfold kept. rewrite Gi, Gq, passes_iff.
    apply get_some_lt in Gq. intuition lia.
  - intros i Hi. unfold idx, kept_indices in Hi.
    apply List.filter_In in Hi as [Hi _]. apply in_seq in Hi. lia.
Qed.

(** What [keep_pairs] returns passes the filter whole. *)
Lemma keep_pairs_idem (alleles : string) :
  forall quals : string,
    keep_pairs (fst (keep_pairs alleles quals)) (snd (keep_pairs alleles quals))
    = keep_pairs alleles quals.
Proof.
  induction alleles as [| a alleles IH]; intros [| q quals]; try reflexivity.
  cbn [keep_pairs]. destruct (passes a q) eqn:E; cbn [fst snd keep_pairs].
  - rewrite E, IH. reflexivity.
  - apply IH.
Qed.

Lemma keep_pairs_length (alleles : string) :
  forall quals : string,
    String.length (fst (keep_pairs alleles quals))
    = String.length (snd (keep_pairs alleles quals)).
Proof.
  induction alleles as [| a alleles IH]; intros [| q quals]; try reflexivity.
  cbn [keep_pairs]. destruct (passes a q); cbn [fst snd String.length].
  - rewrite IH. reflexivity.
  - apply IH.
Qed.

(** The dict [check_bases] leaves at the address. *)
Definition filtered (d : gmap string value) (alleles quals : string)
  : gmap string value :=
  <["alleles" := PStr (fst (keep_pairs alleles quals))]>
    (<["base_qualities" := PStr (snd (keep_pairs alleles quals))]> d).

Lemma stored_lookup (r : loc) (d : gmap string value) (na nq : string) (w : world) :
  w_heap (stored r d na nq w) !! r
  = Some (<["alleles" := PStr na]> (<["base_qualities" := PStr nq]> d)).
Proof. unfold stored, set_heap. cbn [w_heap]. apply lookup_insert_eq. Qed.

(** The guard of [check_bases]. *)
Lemma check_bases_mismatch (r : loc) (d : gmap string value)
      (alleles quals name : string) (w : world) :
  w_heap w !! r = Some d ->
  d !! "alleles" = Some (PStr alleles) ->
  d !! "base_qualities" = Some (PStr quals) ->
  d !! "snp_name" = Some (PStr name) ->
  String.length quals <> String.length alleles ->
  check_bases r cutoff w
  = (Raise (SystemExit ("Error: Quals and bases differ at " ++ name ++ " stopping.")),
     w).
Proof.
  intros Hr Ha Hq Hn Hlen. unfold check_bases.
  rewrite (bind_ok _ _ _ _ _ (dict_get_ok _ _ _ _ _ Hr Hq)).
  rewrite (bind_ok _ _ _ _ _ (dict_get_ok _ _ _ _ _ Hr Ha)).
  cbn [py_len]. apply Nat.eqb_neq in Hlen. rewrite Hlen. cbn [negb].
  rewrite (bind_ok _ _ _ _ _ (dict_get_ok _ _ _ _ _ Hr Hn)).
  reflexivity.
Qed.

(** C6: on a record whose base qualities and alleles are strings of
    different lengths, [check_bases] raises [SystemExit] with the
    message that names the record's SNP, in the world it was called
    in (nothing is stored, printed or written); when the lengths are
    equal it returns the record and raises nothing. *)
Theorem check_bases_length_guard (r : loc) (d : gmap string value)
        (alleles quals name : string) (w : world) :
  w_heap w !! r = Some d ->
  d !! "alleles" = Some (PStr alleles) ->
  d !! "base_qualities" = Some (PStr quals) ->
  d !! "snp_name" = Some (PStr name) ->
  (String.length quals <> String.length alleles ->
   check_bases r cutoff w
   = (Raise (SystemExit ("Error: Quals and bases differ at " ++ name ++ " stopping.")),
      w))
  /\ (String.length quals = String.length alleles ->
      exists w', check_bases r cutoff w = (Ok r, w')).
Proof.
  intros Hr Ha Hq Hn. split; intros Hlen.
  - apply (check_bases_mismatch r d alleles quals name w); assumption.
  - eexists. apply (check_bases_keep_pairs r d alleles quals w Hr Ha Hq).
    symmetry. exact Hlen.
Qed.

(** C7: on a record whose alleles and base qualities are strings of
    the same length, a second [check_bases] with the same threshold
    returns the same record and leaves the world the first one made
    as it is: the alleles and base qualities after two applications
    are those after one. *)
Theorem check_bases_idempotent (r : loc) (d : gmap string value)
        (alleles quals : string) (w : world) :
  w_heap w !! r = Some d ->
  d !! "alleles" = Some (PStr alleles) ->
  d !! "base_qualities" = Some (PStr quals) ->
  String.length alleles = String.length quals ->
  exists w1 : world,
    check_bases r cutoff w = (Ok r, w1)
    /\ check_bases r cutoff w1 = (Ok r, w1)
    /\ (let* r1 := check_bases r cutoff in check_bases r1 cutoff) w
       = check_bases r cutoff w.
Proof.
  intros Hr Ha Hq Hlen.
  set (na := fst (keep_pairs alleles quals)).
  set (nq := snd (keep_pairs alleles quals)).
  pose proof (check_bases_keep_pairs r d alleles quals w Hr Ha Hq Hlen) as H1.
  fold na nq in H1.
  assert (H2 : check_bases r cutoff (stored r d na nq w)
               = (Ok r, stored r d na nq w)).
  { rewrite (check_bases_keep_pairs r _ na nq _ (stored_lookup r d na nq w)).
    - unfold na, nq. rewrite keep_pairs_idem. fold na nq.
      unfold stored, set_heap.
      cbn [w_heap w_stdout w_map w_ped w_rng w_draws].
      rewrite insert_insert_eq.
      rewrite (insert_id (<["alleles":=PStr na]> (<["base_qualities":=PStr nq]> d))
                 "base_qualities" (PStr nq))
        by (rewrite lookup_insert_ne by discriminate; apply lookup_insert_eq).
      rewrite insert_insert_eq. reflexivity.
    - apply lookup_insert_eq.
    - rewrite lookup_insert_ne by discriminate. apply lookup_insert_eq.
    - apply keep_pairs_length. }
  exists (stored r d na nq w). split; [exact H1 |]. split; [exact H2 |].
  rewrite (bind_ok _ _ _ _ _ H1), H2, H1. reflexivity.
Qed.

(** C9: on a record whose alleles and base qualities are strings of
    the same length, [check_bases] returns the address it was given;
    the dict at that address differs from the one before at most at
    the keys [alleles] and [base_qualities] (so [chrom], [pos],
    [ref_base], [snp_name] and [snps] are as before); no dict is
    allocated, every other dict is as before, and nothing is printed,
    written or drawn. *)
Theorem check_bases_frame (r : loc) (d : gmap string value)
        (alleles quals : string) (w : world) :
  w_heap w !! r = Some d ->
  d !! "alleles" = Some (PStr alleles) ->
  d !! "base_qualities" = Some (PStr quals) ->
  String.length alleles = String.length quals ->
  exists (w' : world) (d' : gmap string value),
    check_bases r cutoff w = (Ok r, w')
    /\ w_heap w' !! r = Some d'
    /\ (forall key : string,
           key <> "alleles" -> key <> "base_qualities" -> d' !! key = d !! key)
    /\ (d' !! "chrom" = d !! "chrom" /\ d' !! "pos" = d !! "pos"
        /\ d' !! "ref_base" = d !! "ref_base" /\ d' !! "snp_name" = d !! "snp_name"
        /\ d' !! "snps" = d !! "snps")
    /\ dom (w_heap w') = dom (w_heap w)
    /\ (forall r' : loc, r' <> r -> w_heap w' !! r' = w_heap w !! r')
    /\ w_stdout w' = w_stdout w /\ w_map w' = w_map w /\ w_ped w' = w_ped w
    /\ w_rng w' = w_rng w /\ w_draws w' = w_draws w.
Proof.
  intros Hr Ha Hq Hlen.
  exists (stored r d (fst (keep_pairs alleles quals))
                 (snd (keep_pairs alleles quals)) w),
         (filtered d alleles quals).
  assert (Hframe : forall key : string,
             key <> "alleles" -> key <> "base_qualities" ->
             filtered d alleles quals !! key = d !! key).
  { intros key H1 H2. unfold filtered.
    rewrite !lookup_insert_ne by congruence. reflexivity. }
  split; [apply check_bases_keep_pairs; assumption |].
  split; [apply stored_lookup |].
  split; [exact Hframe |].
  split; [repeat split; apply Hframe; discriminate |].
  unfold stored, set_heap. cbn [w_heap w_stdout w_map w_ped w_rng w_draws].
  split.
  - rewrite dom_insert_L. apply subseteq_union_1_L, singleton_subseteq_l.
    exact (elem_of_dom_2 (w_heap w) r d Hr).
  - split; [| repeat split].
    intros r' Hne. rewrite lookup_insert_ne by congruence. reflexivity.
Qed.

End QualityFilter.

(** ** Extraction followed by filtering *)

Section Extraction.

(** The dict [filter_line] builds. *)
Definition extracted (field0 field1 field2 field3 field4 name snp_a snp_b : string)
  : gmap string value :=
  <["snps" := PTuple snp_a snp_b]>
    (<["snp_name" := PStr name]>
       (<["base_qualities" := PStr field4]>
          (<["alleles" := PStr (Str.upper field3)]>
             (<["ref_base" := PStr field2]>
                (<["pos" := PStr field1]>
                   (<["chrom" := PStr (chrom_of field0)]> empty)))))).

(** The payload of field 6 has its sub-fields 2, 3 and 4. *)
Definition payload (field6 name snp_a info4 : string) : Prop :=
  nth_error (Str.split TAB field6) 2 = Some name
  /\ nth_error (Str.split TAB field6) 3 = Some snp_a
  /\ nth_error (Str.split TAB field6) 4 = Some info4.

Lemma filter_line_seven (f0 f1 f2 f3 f4 f5 f6 name snp_a info4 : string) (w : world) :
  payload f6 name snp_a info4 ->
  let r := fresh (dom (w_heap w)) in
  filter_line [f0; f1; f2; f3; f4; f5; f6] w
  = (Ok r,
     set_heap (<[r := extracted f0 f1 f2 f3 f4 name snp_a
                         (Str.rstrip_chars "]" info4)]> (w_heap w)) w).
Proof.
  intros (H2 & H3 & H4) r. unfold filter_line.
  rewrite (bind_ok _ _ w w f6) by reflexivity.
  unfold list_getitem at 1 2 3. rewrite H2, H3, H4.
  do 3 (rewrite (bind_ok _ _ w w _) by reflexivity).
  rewrite (bind_ok _ _ w w f0) by reflexivity.
  rewrite (bind_ok _ _ w w f1) by reflexivity.
  rewrite (bind_ok _ _ w w f2) by reflexivity.
  rewrite (bind_ok _ _ w w f3) by reflexivity.
  rewrite (bind_ok _ _ w w f4) by reflexivity.
  reflexivity.
Qed.

(** A line of seven fields is valid when the payload of field 6 has its
    sub-fields and the record extracted from it satisfies the invariant
    of the record: its alleles, field 3 in upper case, are as long as
    its base qualities, field 4. *)
Definition valid_line (f3 f4 f6 : string) : Prop :=
  (exists name snp_a info4 : string, payload f6 name snp_a info4)
  /\ String.length (Str.upper f3) = String.length f4.

(** C5: on a valid line of seven fields, [filter_line] returns a record
    whose alleles (field 3 in upper case) and base qualities (field 4)
    have the same length, and [check_bases] returns that record with
    its alleles and base qualities again of equal length. *)
Theorem extraction_then_filter_lengths
        (f0 f1 f2 f3 f4 f5 f6 : string) (cutoff : Z) (w : world) :
  valid_line f3 f4 f6 ->
  exists (r : loc) (w1 : world) (d1 : gmap string value) (a1 q1 : string),
    filter_line [f0; f1; f2; f3; f4; f5; f6] w = (Ok r, w1)
    /\ w_heap w1 !! r = Some d1
    /\ d1 !! "alleles" = Some (PStr a1)
    /\ d1 !! "base_qualities" = Some (PStr q1)
    /\ a1 = Str.upper f3
    /\ q1 = f4
    /\ String.length a1 = String.length q1
    /\ exists (w2 : world) (d2 : gmap string value) (a2 q2 : string),
         check_bases r cutoff w1 = (Ok r, w2)
         /\ w_heap w2 !! r = Some d2
         /\ d2 !! "alleles" = Some (PStr a2)
         /\ d2 !! "base_qualities" = Some (PStr q2)
         /\ String.length a2 = String.length q2.
Proof.
  intros [(name & snp_a & info4 & Hp) Hlen].
  set (d1 := extracted f0 f1 f2 f3 f4 name snp_a (Str.rstrip_chars "]" info4)).
  set (r := fresh (dom (w_heap w))).
  set (w1 := set_heap (<[r := d1]> (w_heap w)) w).
  assert (Hr : w_heap w1 !! r = Some d1) by apply lookup_insert_eq.
  assert (Ha : d1 !! "alleles" = Some (PStr (Str.upper f3))) by reflexivity.
  assert (Hq : d1 !! "base_qualities" = Some (PStr f4)) by reflexivity.
  exists r, w1, d1, (Str.upper f3), f4.
  split; [apply (filter_line_seven f0 f1 f2 f3 f4 f5 f6 name snp_a info4 w Hp) |].
  split; [exact Hr |]. split; [exact Ha |]. split; [exact Hq |].
  split; [reflexivity |]. split; [reflexivity |]. split; [exact Hlen |].
  exists (stored r d1 (fst (keep_pairs cutoff (Str.upper f3) f4))
                 (snd (keep_pairs cutoff (Str.upper f3) f4)) w1),
         (filtered cutoff d1 (Str.upper f3) f4),
         (fst (keep_pairs cutoff (Str.upper f3) f4)),
         (snd (keep_pairs cutoff (Str.upper f3) f4)).
  split; [apply check_bases_keep_pairs; assumption |].
  split; [apply stored_lookup |].
  split; [apply lookup_insert_eq |].
  split; [unfold filtered; rewrite lookup_insert_ne by discriminate;
          apply lookup_insert_eq |].
  apply keep_pairs_length.
Qed.

End Extraction.

(** ** The consensus caller *)

Section Consensus.

(** The number of occurrences of [x] in [l]. *)
Fixpoint occurrences (x : value) (l : list value) : nat :=
  match l with
  | [] => 0
  | y :: l' => (if bool_decide (x = y) then 1 else 0) + occurrences x l'
  end%nat.

(** The count a counter holds for [x] (0 when [x] is not a key). *)
Fixpoint count_of (x : value) (m : list (value * nat)) : nat :=
  match m with
  | [] => 0%nat
  | (y, n) :: m' => if bool_decide (x = y) then n else count_of x m'
  end.

Lemma occurrences_app (x : value) (l1 l2 : list value) :
  occurrences x (l1 ++ l2)%list = (occurrences x l1 + occurrences x l2)%nat.
Proof. induction l1 as [| y l1 IH]; simpl; [reflexivity | rewrite IH; lia]. Qed.

Lemma occurrences_pos (x : value) (l : list value) :
  In x l -> (0 < occurrences x l)%nat.
Proof.
  induction l as [| y l IH]; simpl; [contradiction |].
  intros [-> | H].
  - rewrite bool_decide_eq_true_2 by reflexivity. lia.
  - specialize (IH H). destruct (bool_decide (x = y)); lia.
Qed.

Lemma count_of_count_add (x y : value) (m : list (value * nat)) :
  count_of y (count_add x m)
  = ((if bool_decide (y = x) then 1 else 0) + count_of y m)%nat.
Proof.
  induction m as [| [z n] m IH]; simpl.
  - destruct (bool_decide (y = x)); reflexivity.
  - destruct (bool_decide_reflect (x = z)) as [-> | Hxz]; simpl.
    + destruct (bool_decide (y = z)); reflexivity.
    + destruct (bool_decide_reflect (y = z)) as [-> | Hyz].
      * rewrite bool_decide_eq_false_2 by congruence. reflexivity.
      * exact IH.
Qed.

Lemma keys_count_add (x k : value) (m : list (value * nat)) :
  In k (map fst (count_add x m)) <-> k = x \/ In k (map fst m).
Proof.
  induction m as [| [z n] m IH]; simpl.
  - intuition congruence.
  - destruct (bool_decide_reflect (x = z)) as [-> | Hxz]; simpl.
    + intuition congruence.
    + rewrite IH. intuition congruence.
Qed.

Lemma NoDup_count_add (x : value) (m : list (value * nat)) :
  List.NoDup (map fst m) -> List.NoDup (map fst (count_add x m)).
Proof.
  induction m as [| [z n] m IH]; simpl; intros H.
  - apply List.NoDup_cons; [simpl; tauto | apply List.NoDup_nil].
  - apply List.NoDup_cons_iff in H as [Hz H].
    destruct (bool_decide_reflect (x = z)) as [-> | Hxz]; simpl.
    + apply List.NoDup_cons_iff. split; assumption.
    + apply List.NoDup_cons_iff. split; [| apply IH, H].
      rewrite keys_count_add. intros [-> | Hin]; [congruence | contradiction].
Qed.

(** The counter built from [l], started from [m]. *)
Lemma Counter_from (l : list value) :
  forall m : list (value * nat),
    List.NoDup (map fst m) ->
    let m' := fold_left (fun m x => count_add x m) l m in
    List.NoDup (map fst m')
    /\ forall y, count_of y m' = (occurrences y l + count_of y m)%nat.
Proof.
  induction l as [| x l IH]; intros m Hm; simpl.
  - split; [exact Hm | reflexivity].
  - destruct (IH (count_add x m) (NoDup_count_add x m Hm)) as [Hnd Hc].
    split; [exact Hnd |]. intros y. rewrite Hc, count_of_count_add. lia.
Qed.

Lemma Counter_spec (l : list value) :
  List.NoDup (map fst (Counter l))
  /\ forall y, count_of y (Counter l) = occurrences y l.
Proof.
  destruct (Counter_from l [] (List.NoDup_nil _)) as [Hnd Hc].
  split; [exact Hnd |]. intros y. unfold Counter. rewrite (Hc y). simpl. lia.
Qed.

(** With distinct keys, an entry of the counter is the count of its
    key; a key with a positive count has its entry. *)
Lemma count_of_entry (m : list (value * nat)) (x : value) (n : nat) :
  List.NoDup (map fst m) -> In (x, n) m -> count_of x m = n.
Proof.
  induction m as [| [z k] m IH]; simpl; intros Hnd Hin; [contradiction |].
  apply List.NoDup_cons_iff in Hnd as [Hz Hnd].
  destruct Hin as [Heq | Hin].
  - injection Heq as -> ->. rewrite bool_decide_eq_true_2 by reflexivity.
    reflexivity.
  - destruct (bool_decide_reflect (x = z)) as [-> | Hxz].
    + exfalso. apply Hz. apply (List.in_map fst) in Hin. exact Hin.
    + apply IH; assumption.
Qed.

Lemma entry_of_count (m : list (value * nat)) (x : value) :
  (0 < count_of x m)%nat -> In (x, count_of x m) m.
Proof.
  induction m as [| [z k] m IH]; simpl; intros H; [lia |].
  destruct (bool_decide_reflect (x = z)) as [-> | Hxz].
  - left. reflexivity.
  - right. apply IH, H.
Qed.

Lemma occurrences_in (x : value) (l : list value) :
  (0 < occurrences x l)%nat -> In x l.
Proof.
  induction l as [| y l IH]; simpl; [lia |].
  destruct (bool_decide_reflect (x = y)) as [-> | Hne]; intros H.
  - left. reflexivity.
  - right. apply IH. lia.
Qed.

(** [most_common] reorders the entries and puts a largest count
    first. *)
Lemma insert_desc_perm (x : value * nat) (l : list (value * nat)) :
  Permutation (insert_desc x l) (x :: l).
Proof.
  induction l as [| y l IH]; simpl; [reflexivity |].
  destruct (snd y <=? snd x)%nat; [reflexivity |].
  rewrite IH. apply perm_swap.
Qed.

Lemma most_common_perm (m : list (value * nat)) : Permutation (most_common m) m.
Proof.
  induction m as [| x m IH]; simpl; [reflexivity |].
  rewrite insert_desc_perm, IH. reflexivity.
Qed.

Definition head_is_max (l : list (value * nat)) : Prop :=
  match l with
  | [] => True
  | top :: _ => forall e, In e l -> (snd e <= snd top)%nat
  end.

Lemma insert_desc_head (x : value * nat) (l : list (value * nat)) :
  head_is_max l -> head_is_max (insert_desc x l).
Proof.
  destruct l as [| y l]; simpl.
  - intros _ e [<- | []]. lia.
  - intros Hy. destruct (Nat.leb_spec (snd y) (snd x)) as [Hle | Hlt].
    + intros e [<- | He]; [lia |]. specialize (Hy e He). simpl in *. lia.
    + intros e [<- | He]; [simpl; lia |].
      apply (Permutation_in _ (insert_desc_perm x l)) in He.
      destruct He as [<- | He]; [simpl; lia |].
      apply Hy. right. exact He.
Qed.

Lemma most_common_head (m : list (value * nat)) : head_is_max (most_common m).
Proof.
  induction m as [| x m IH]; simpl; [exact I |].
  apply insert_desc_head, IH.
Qed.

(** The loop of [find_max_base] collects the keys whose count is
    [max_count], in the order of the list. *)
Lemma collect_max (max_count : nat) (counts : list (value * nat)) :
  forall (acc : list value) (w : world),
    for_each counts
      (fun each_allele max_alleles =>
         if (snd each_allele =? max_count)%nat
         then ret (max_alleles ++ [fst each_allele])%list
         else ret max_alleles) acc w
    = (Ok (acc ++ map fst (List.filter (fun e => (snd e =? max_count)%nat) counts))%list,
       w).
Proof.
  induction counts as [| e counts IH]; intros acc w; simpl.
  - rewrite List.app_nil_r. reflexivity.
  - destruct (snd e =? max_count)%nat.
    + rewrite (bind_ok _ _ w w (acc ++ [fst e])%list) by reflexivity.
      rewrite IH, <- List.app_assoc. reflexivity.
    + rewrite (bind_ok _ _ w w acc) by reflexivity. apply IH.
Qed.

(** The world after one draw of the generator. *)
Definition drawn (w : world) : world :=
  World (w_heap w) (w_stdout w) (w_map w) (w_ped w) (w_rng w) (S (w_draws w)).

Lemma random_choice_in {A} (l : list A) (w : world) :
  l <> [] -> exists x, In x l /\ random_choice l w = (Ok x, drawn w).
Proof.
  intros Hne. unfold random_choice.
  destruct (nth_error l (w_rng w (w_draws w) mod length l)%nat) as [x |] eqn:E.
  - exists x. split; [eapply nth_error_In; exact E | reflexivity].
  - exfalso. apply nth_error_None in E.
    assert (0 < length l)%nat by (destruct l; [congruence | simpl; lia]).
    pose proof (Nat.mod_upper_bound (w_rng w (w_draws w)) (length l)). lia.
Qed.

(** [find_max_base] on a value with at least one element: the result
    is an element with the largest number of occurrences, at the cost
    of one draw. *)
Lemma find_max_base_iter (alleles : value) (w : world) :
  py_iter alleles <> [] ->
  exists x : value,
    find_max_base alleles w = (Ok x, drawn w)
    /\ In x (py_iter alleles)
    /\ forall y, (occurrences y (py_iter alleles) <= occurrences x (py_iter alleles))%nat.
Proof.
  intros Hne. set (l := py_iter alleles) in *.
  destruct (Counter_spec l) as [Hnd Hcount].
  pose proof (most_common_perm (Counter l)) as Hperm.
  pose proof (most_common_head (Counter l)) as Hhead.
  assert (Hentry : forall y, In y l ->
                     In (y, occurrences y l) (most_common (Counter l))).
  { intros y Hy. apply (Permutation_in _ (Permutation_sym Hperm)).
    rewrite <- Hcount. apply entry_of_count. rewrite Hcount.
    apply occurrences_pos, Hy. }
  unfold find_max_base. fold l.
  destruct (most_common (Counter l)) as [| top rest] eqn:Emc.
  { destruct l as [| y0 l']; [congruence |].
    destruct (Hentry y0 (or_introl eq_refl)). }
  rewrite (bind_ok _ _ w w top) by reflexivity.
  rewrite (bind_ok _ _ _ _ _ (collect_max (snd top) (top :: rest) [] w)).
  cbn [app].
  set (max_alleles := map fst (List.filter (fun e => (snd e =? snd top)%nat)
                                 (top :: rest))).
  assert (Hmax : max_alleles <> []).
  { unfold max_alleles. cbn [List.filter]. rewrite Nat.eqb_refl. discriminate. }
  destruct (random_choice_in max_alleles w Hmax) as (x & Hx & Hchoice).
  exists x. split; [exact Hchoice |].
  apply in_map_iff in Hx as ([x' n] & Hfst & He). simpl in Hfst. subst x'.
  apply List.filter_In in He as [He Hn]. simpl in Hn. apply Nat.eqb_eq in Hn.
  subst n.
  assert (Hx : occurrences x l = snd top).
  { rewrite <- Hcount. apply count_of_entry; [exact Hnd |].
    apply (Permutation_in _ Hperm). exact He. }
  assert (Hle : forall y, (occurrences y l <= snd top)%nat).
  { intros y. destruct (Nat.eq_0_gt_0_cases (occurrences y l)) as [-> | Hpos];
      [lia |].
    apply (Hhead (y, occurrences y l)), Hentry, occurrences_in, Hpos. }
  split.
  - apply occurrences_in. rewrite Hx.
    destruct l as [| y0 l']; [congruence |].
    pose proof (occurrences_pos y0 (y0 :: l') (or_introl eq_refl)).
    specialize (Hle y0). lia.
  - intros y. rewrite Hx. apply Hle.
Qed.

(** The number of occurrences of a character in a string. *)
Fixpoint count_char (c : ascii) (s : string) : nat :=
  match s with
  | EmptyString => 0
  | String a s' => (if Ascii.eqb c a then 1 else 0) + count_char c s'
  end%nat.

Lemma occurrences_chars (c : ascii) (s : string) :
  occurrences (PStr (one_char c)) (py_iter (PStr s)) = count_char c s.
Proof.
  induction s as [| a s IH]; [reflexivity |].
  cbn [py_iter list_ascii_of_string map occurrences count_char].
  cbn [py_iter] in IH. rewrite IH. f_equal.
  destruct (Ascii.eqb_spec c a) as [-> | Hne].
  - rewrite bool_decide_eq_true_2 by reflexivity. reflexivity.
  - rewrite bool_decide_eq_false_2; [reflexivity |].
    unfold one_char. congruence.
Qed.

Lemma iter_chars (x : value) (s : string) :
  In x (py_iter (PStr s)) -> exists c : ascii, x = PStr (one_char c).
Proof.
  cbn [py_iter]. intros H. apply in_map_iff in H as (c & <- & _).
  exists c. reflexivity.
Qed.

Lemma find_max_base_chars (s : string) (w : world) :
  s <> EmptyString ->
  exists c : ascii,
    find_max_base (PStr s) w = (Ok (PStr (one_char c)), drawn w)
    /\ (0 < count_char c s)%nat
    /\ forall c' : ascii, (count_char c' s <= count_char c s)%nat.
Proof.
  intros Hne.
  destruct (find_max_base_iter (PStr s) w) as (x & Hrun & Hin & Hmax).
  { destruct s; [congruence | discriminate]. }
  destruct (iter_chars x s Hin) as (c & ->).
  exists c. split; [exact Hrun |]. split.
  - rewrite <- occurrences_chars. apply occurrences_pos, Hin.
  - intros c'. rewrite <- !occurrences_chars. apply Hmax.
Qed.

(** C2: on a non-empty string of alleles, [find_max_base] returns,
    whatever the generator draws, a character of the string whose
    number of occurrences is the largest in the string.  When one
    character occurs more often than every other, it is the result in
    every world.  On [AAGG] the result is [A] or [G] in every world. *)
Theorem find_max_base_mode :
  (forall (s : string) (w : world),
      s <> EmptyString ->
      exists c : ascii,
        find_max_base (PStr s) w = (Ok (PStr (one_char c)), drawn w)
        /\ (0 < count_char c s)%nat
        /\ forall c' : ascii, (count_char c' s <= count_char c s)%nat)
  /\ (forall (s : string) (mode : ascii) (w : world),
         (forall c' : ascii, c' <> mode -> (count_char c' s < count_char mode s)%nat) ->
         find_max_base (PStr s) w = (Ok (PStr (one_char mode)), drawn w))
  /\ (forall w : world,
         find_max_base (PStr "AAGG") w = (Ok (PStr "A"), drawn w)
         \/ find_max_base (PStr "AAGG") w = (Ok (PStr "G"), drawn w)).
Proof.
  split; [exact find_max_base_chars |]. split.
  - intros s mode w Hmode.
    assert (Hne : s <> EmptyString).
    { intros ->.
      destruct (Ascii.eqb_spec mode "A") as [-> | HA].
      - specialize (Hmode "G"%char). simpl in Hmode.
        apply (Nat.nlt_0_r 0), Hmode. discriminate.
      - specialize (Hmode "A"%char). simpl in Hmode.
        apply (Nat.nlt_0_r 0), Hmode. congruence. }
    destruct (find_max_base_chars s w Hne) as (c & Hrun & _ & Hmax).
    destruct (Ascii.eqb_spec c mode) as [-> | Hcm]; [exact Hrun |].
    specialize (Hmode c Hcm). specialize (Hmax mode). lia.
  - intros w.
    destruct (find_max_base_chars "AAGG" w) as (c & Hrun & _ & Hmax);
      [discriminate |].
    rewrite Hrun. specialize (Hmax "A"%char). simpl in Hmax.
    destruct (Ascii.eqb_spec c "A") as [-> | HA]; [left; reflexivity |].
    destruct (Ascii.eqb_spec c "G") as [-> | HG]; [right; reflexivity |].
    lia.
Qed.

End Consensus.

(** ** Chromosome names *)

Section ChromosomeNames.

(** The three substrings [filter_line] removes. *)
Inductive token : Type := Tchr | TOAR | TChr.

Definition token_str (t : token) : string :=
  match t with
  | Tchr => "chr"
  | TOAR => "OAR"
  | TChr => "Chr"
  end.

Definition token_eqb (t u : token) : bool :=
  match t, u with
  | Tchr, Tchr | TOAR, TOAR | TChr, TChr => true
  | _, _ => false
  end.

(** The removal of three substrings one after the other. *)
Definition remove3 (t1 t2 t3 : token) (s : string) : string :=
  Str.replace (token_str t3) ""
    (Str.replace (token_str t2) "" (Str.replace (token_str t1) "" s)).

(** A character that starts one of the three substrings. *)
Definition starts_token (c : ascii) : bool :=
  Ascii.eqb c "c" || Ascii.eqb c "C" || Ascii.eqb c "O".

(** A name read as a sequence of pieces: occurrences of the
    substrings, and single characters. *)
Inductive piece : Type :=
| Tok (t : token)
| Other (c : ascii).

Definition piece_app (p : piece) (rest : string) : string :=
  match p with
  | Tok Tchr => String "c" (String "h" (String "r" rest))
  | Tok TOAR => String "O" (String "A" (String "R" rest))
  | Tok TChr => String "C" (String "h" (String "r" rest))
  | Other c => String c rest
  end.

Definition flatten (ps : list piece) : string := fold_right piece_app EmptyString ps.

Definition is_other (p : piece) : bool :=
  match p with
  | Tok _ => false
  | Other _ => true
  end.

Definition is_not (t : token) (p : piece) : bool :=
  match p with
  | Tok u => negb (token_eqb t u)
  | Other _ => true
  end.

(** One of the three substrings starts the string. *)
Definition starts_any (s : string) : bool :=
  String.prefix "chr" s || String.prefix "OAR" s || String.prefix "Chr" s.

(** The name without its occurrences of the three substrings: one pass
    from the left that passes over each occurrence, of whichever of
    the three ([skip] counts the characters of the occurrence still to
    pass over).  No end of one of the substrings is the start of one,
    so no two occurrences overlap and the pass meets them all. *)
Fixpoint strip_from (skip : nat) (s : string) : string :=
  match s with
  | EmptyString => EmptyString
  | String c s' =>
      match skip with
      | S k => strip_from k s'
      | O => if starts_any s then strip_from 2 s' else String c (strip_from 0 s')
      end
  end.

Definition remove_all (s : string) : string := strip_from 0 s.

(** None of the three substrings occurs in the string. *)
Definition token_free (s : string) : Prop :=
  forall t : token, Str.contains (token_str t) s = false.

Lemma prefix_empty (s : string) : String.prefix "" s = true.
Proof. destruct s; reflexivity. Qed.

Lemma prefix3_inv (a b c : ascii) (s : string) :
  String.prefix (String a (String b (String c EmptyString))) s = true ->
  exists s', s = String a (String b (String c s')).
Proof.
  destruct s as [| x [| y [| z s']]]; simpl; try discriminate.
  - destruct (ascii_dec a x); discriminate.
  - destruct (ascii_dec a x); [| discriminate].
    destruct (ascii_dec b y); discriminate.
  - destruct (ascii_dec a x) as [-> |]; [| discriminate].
    destruct (ascii_dec b y) as [-> |]; [| discriminate].
    destruct (ascii_dec c z) as [-> |]; [| discriminate].
    intros _. exists s'. reflexivity.
Qed.

Lemma starts_any_inv (s : string) :
  starts_any s = true -> exists t rest, s = piece_app (Tok t) rest.
Proof.
  unfold starts_any. intros H.
  apply orb_true_iff in H as [H | H]; [apply orb_true_iff in H as [H | H] |];
    apply prefix3_inv in H as (rest & ->).
  - exists Tchr, rest. reflexivity.
  - exists TOAR, rest. reflexivity.
  - exists TChr, rest. reflexivity.
Qed.

Lemma starts_any_token (t : token) (rest : string) :
  starts_any (piece_app (Tok t) rest) = true.
Proof. destruct t; unfold starts_any; simpl; rewrite prefix_empty; reflexivity. Qed.

Lemma strip_from_token (t : token) (rest : string) :
  strip_from 0 (piece_app (Tok t) rest) = strip_from 0 rest.
Proof.
  pose proof (starts_any_token t rest) as H.
  destruct t; cbn [piece_app] in *; cbn [strip_from]; rewrite H; reflexivity.
Qed.

(** Every name is a sequence of pieces of which [remove_all] keeps the
    single characters. *)
Lemma remove_all_pieces (n : nat) :
  forall s : string,
    (String.length s <= n)%nat ->
    exists ps, s = flatten ps /\ remove_all s = flatten (List.filter is_other ps).
Proof.
  unfold remove_all.
  induction n as [| n IH]; intros s Hn.
  - destruct s; [| simpl in Hn; lia]. exists []. split; reflexivity.
  - destruct s as [| c s]; [exists []; split; reflexivity |].
    destruct (starts_any (String c s)) eqn:E.
    + destruct (starts_any_inv _ E) as (t & rest & Hs).
      destruct (IH rest) as (ps & Hrest & Hstrip).
      { rewrite Hs in Hn. destruct t; simpl in Hn; lia. }
      exists (Tok t :: ps). rewrite Hs, strip_from_token, Hstrip, Hrest.
      split; reflexivity.
    + destruct (IH s) as (ps & Hs & Hstrip); [simpl in Hn; lia |].
      exists (Other c :: ps). split; [rewrite Hs; reflexivity |].
      cbn [strip_from]. rewrite E, Hstrip. reflexivity.
Qed.

(** A character that starts no substring is not where an occurrence
    starts. *)
Lemma prefix_token_other (t : token) (c : ascii) (rest : string) :
  starts_token c = false -> String.prefix (token_str t) (String c rest) = false.
Proof.
  unfold starts_token. intros H.
  apply orb_false_iff in H as [H H3]. apply orb_false_iff in H as [H1 H2].
  apply Ascii.eqb_neq in H1, H2, H3.
  destruct t; cbn [String.prefix token_str];
    match goal with
    | |- context [ascii_dec ?x c] => destruct (ascii_dec x c) as [E |]
    end; try reflexivity; congruence.
Qed.

Lemma replace_from_token_same (t : token) (rest : string) :
  Str.replace_from (token_str t) "" 0 (piece_app (Tok t) rest)
  = Str.replace_from (token_str t) "" 0 rest.
Proof. destruct t; simpl; rewrite prefix_empty; apply str_app_nil_l. Qed.

Lemma replace_from_token_diff (t u : token) (rest : string) :
  token_eqb t u = false ->
  Str.replace_from (token_str t) "" 0 (piece_app (Tok u) rest)
  = piece_app (Tok u) (Str.replace_from (token_str t) "" 0 rest).
Proof.
  intros H. destruct t, u; try discriminate H;
    cbn [piece_app token_str Str.replace_from];
    rewrite ?(prefix_token_other Tchr), ?(prefix_token_other TOAR),
      ?(prefix_token_other TChr) by reflexivity;
    reflexivity.
Qed.

(** The second and third characters of the substrings start none of
    them: in a sequence of pieces they are single characters. *)
Lemma flatten_head (x : ascii) (rest : string) (ps : list piece) :
  starts_token x = false ->
  flatten ps = String x rest ->
  exists ps', ps = Other x :: ps' /\ flatten ps' = rest.
Proof.
  intros Hx E. destruct ps as [| [t | c] ps]; [discriminate E | |].
  - destruct t; cbn in E; injection E as <- _; discriminate Hx.
  - cbn in E. injection E as -> <-. exists ps. split; reflexivity.
Qed.

(** An occurrence that starts at a single character is made of three
    single characters in a row, which stay in a row when occurrences
    are taken out of the sequence. *)
Lemma prefix_others (t : token) (c : ascii) (ps : list piece) :
  String.prefix (token_str t) (String c (flatten ps)) = true ->
  String.prefix (token_str t)
    (String c (flatten (List.filter is_other ps))) = true.
Proof.
  intros H.
  destruct t; cbn [token_str] in *; apply prefix3_inv in H as (s2 & E);
    injection E as -> E;
    (apply flatten_head in E as (ps1 & -> & E); [| reflexivity]);
    (apply flatten_head in E as (ps2 & -> & E); [| reflexivity]);
    simpl; apply prefix_empty.
Qed.

Lemma contains_cons (sub : string) (c : ascii) (s : string) :
  Str.contains sub (String c s) = false ->
  String.prefix sub (String c s) = false /\ Str.contains sub s = false.
Proof. cbn [Str.contains]. intros H. apply orb_false_iff in H. exact H. Qed.

Lemma others_filter (t : token) (ps : list piece) :
  List.filter is_other (List.filter (is_not t) ps) = List.filter is_other ps.
Proof.
  induction ps as [| [u | c] ps IH]; [reflexivity | |].
  - cbn [List.filter is_not is_other].
    destruct (negb (token_eqb t u)); cbn [List.filter is_other]; exact IH.
  - cbn [List.filter is_not is_other]. rewrite IH. reflexivity.
Qed.

(** One removal, on pieces: when the single characters of the sequence
    make no occurrence among themselves, the occurrences of the
    substring go and the other pieces stay. *)
Lemma replace_flatten (t : token) (ps : list piece) :
  token_free (flatten (List.filter is_other ps)) ->
  Str.replace (token_str t) "" (flatten ps) = flatten (List.filter (is_not t) ps).
Proof.
  assert (Hunfold : forall s, Str.replace (token_str t) "" s
                              = Str.replace_from (token_str t) "" 0 s)
    by (intros s; destruct t; reflexivity).
  rewrite Hunfold.
  induction ps as [| p ps IH]; intros Hfree; [reflexivity |].
  change (flatten (p :: ps)) with (piece_app p (flatten ps)).
  cbn [List.filter].
  destruct p as [u | c].
  - cbn [List.filter is_other] in Hfree. specialize (IH Hfree).
    cbn [is_not]. destruct (token_eqb t u) eqn:E; cbn [negb].
    + assert (t = u) as <- by (destruct t, u; try discriminate E; reflexivity).
      rewrite replace_from_token_same. exact IH.
    + rewrite (replace_from_token_diff t u _ E), IH. reflexivity.
  - cbn [List.filter is_other] in Hfree.
    change (flatten (Other c :: List.filter is_other ps))
      with (String c (flatten (List.filter is_other ps))) in Hfree.
    assert (Htail : token_free (flatten (List.filter is_other ps)))
      by (intros u; exact (proj2 (contains_cons _ _ _ (Hfree u)))).
    specialize (IH Htail).
    cbn [is_not piece_app Str.replace_from].
    destruct (String.prefix (token_str t) (String c (flatten ps))) eqn:E.
    + apply prefix_others in E.
      rewrite (proj1 (contains_cons _ _ _ (Hfree t))) in E. discriminate E.
    + rewrite IH. reflexivity.
Qed.

(** Three removals of three different substrings leave the single
    characters, whatever the order. *)
Lemma filter3_others (t1 t2 t3 : token) (ps : list piece) :
  token_eqb t1 t2 = false -> token_eqb t1 t3 = false -> token_eqb t2 t3 = false ->
  List.filter (is_not t3) (List.filter (is_not t2) (List.filter (is_not t1) ps))
  = List.filter is_other ps.
Proof.
  intros H12 H13 H23. induction ps as [| p ps IH]; [reflexivity |].
  destruct p as [u | c].
  - destruct t1, t2, t3, u; try discriminate; simpl; exact IH.
  - simpl. rewrite IH. reflexivity.
Qed.

Lemma remove3_flatten (t1 t2 t3 : token) (ps : list piece) :
  token_free (flatten (List.filter is_other ps)) ->
  token_eqb t1 t2 = false -> token_eqb t1 t3 = false -> token_eqb t2 t3 = false ->
  remove3 t1 t2 t3 (flatten ps) = flatten (List.filter is_other ps).
Proof.
  intros Hfree H12 H13 H23. unfold remove3.
  rewrite (replace_flatten t1 ps Hfree).
  rewrite (replace_flatten t2) by (rewrite others_filter; exact Hfree).
  rewrite (replace_flatten t3) by (rewrite !others_filter; exact Hfree).
  rewrite filter3_others by assumption. reflexivity.
Qed.

Lemma chrom_of_remove3 (s : string) : chrom_of s = remove3 Tchr TOAR TChr s.
Proof. reflexivity. Qed.

(** C8 (as amended): on a name that is left without any of [chr],
    [OAR] and [Chr] once its occurrences of the three are taken out
    (taking them out brings no new occurrence together), the
    chromosome name of [filter_line] is the name without these
    occurrences, it holds none of the three substrings, and the three
    removals give it in any order.  That condition is needed: where
    the chromosome name of [filter_line] is the name without these
    occurrences and holds none of the three, the condition holds.
    [chrOAR1] becomes [1]. *)
Theorem chrom_of_removes_occurrences :
  (forall s : string,
      token_free (remove_all s) ->
      chrom_of s = remove_all s
      /\ (forall t1 t2 t3 : token,
             token_eqb t1 t2 = false -> token_eqb t1 t3 = false ->
             token_eqb t2 t3 = false ->
             remove3 t1 t2 t3 s = chrom_of s)
      /\ token_free (chrom_of s))
  /\ (forall s : string,
         chrom_of s = remove_all s -> token_free (chrom_of s) ->
         token_free (remove_all s))
  /\ chrom_of "chrOAR1" = "1".
Proof.
  split; [| split; [intros s <- H; exact H | reflexivity]].
  intros s Hfree.
  destruct (remove_all_pieces (String.length s) s (Nat.le_refl _))
    as (ps & Hs & Hall).
  rewrite Hall in *. rewrite Hs.
  assert (Hchrom : chrom_of (flatten ps) = flatten (List.filter is_other ps))
    by (rewrite chrom_of_remove3; apply remove3_flatten;
        [exact Hfree | reflexivity ..]).
  split; [exact Hchrom |]. split.
  - intros t1 t2 t3 H12 H13 H23. rewrite Hchrom.
    apply remove3_flatten; assumption.
  - rewrite Hchrom. exact Hfree.
Qed.

(** Where a removal brings a new occurrence together the order matters
    and an occurrence can be left: from [cOARhr], [filter_line] makes
    [chr], and the removal of [OAR] first makes the empty name. *)
Lemma chrom_of_order_counterexample :
  chrom_of "cOARhr" = "chr"
  /\ remove3 TOAR Tchr TChr "cOARhr" = ""
  /\ remove3 TOAR Tchr TChr "cOARhr" <> chrom_of "cOARhr"
  /\ Str.contains "chr" (chrom_of "cOARhr") = true.
Proof. repeat split. discriminate. Qed.

End ChromosomeNames.

(** ** The loop over the lines *)

Section RecordLoop.

Variable base_min_quality : Z.

(** The lookups the loop makes in the record after [check_bases]. *)
Lemma record_lookups (f0 f1 f2 f3 f4 name snp_a snp_b na nq : string) :
  let d := <["alleles" := PStr na]>
             (<["base_qualities" := PStr nq]>
                (extracted f0 f1 f2 f3 f4 name snp_a snp_b)) in
  d !! "alleles" = Some (PStr na)
  /\ d !! "snp_name" = Some (PStr name)
  /\ d !! "snps" = Some (PTuple snp_a snp_b)
  /\ d !! "chrom" = Some (PStr (chrom_of f0))
  /\ d !! "pos" = Some (PStr f1).
Proof. repeat split; reflexivity. Qed.

(** Without its sub-fields 2, 3 and 4 the payload makes [filter_line]
    raise. *)
Lemma filter_line_outcome (f0 f1 f2 f3 f4 f5 f6 : string) (w : world) :
  filter_line [f0; f1; f2; f3; f4; f5; f6] w = (Raise IndexError, w)
  \/ exists name snp_a info4, payload f6 name snp_a info4.
Proof.
  unfold payload, filter_line.
  rewrite (bind_ok _ _ w w f6) by reflexivity. unfold list_getitem at 1 2 3.
  destruct (nth_error (Str.split TAB f6) 2) as [name |]; [| left; reflexivity].
  rewrite (bind_ok _ _ w w name) by reflexivity.
  destruct (nth_error (Str.split TAB f6) 3) as [snp_a |]; [| left; reflexivity].
  rewrite (bind_ok _ _ w w snp_a) by reflexivity.
  destruct (nth_error (Str.split TAB f6) 4) as [info4 |]; [| left; reflexivity].
  right. exists name, snp_a, info4. repeat split.
Qed.

(** What one round of the loop does to the counters and the outputs
    on a line with seven fields. *)
Inductive round_outcome (f3 f4 f6 : string) (g b : Z) (w : world)
  : outcome (Z * Z) * world -> Prop :=
| round_fatal (e : exn) (w' : world) :
    ~ valid_line f3 f4 f6 ->
    round_outcome f3 f4 f6 g b w (Raise e, w')
| round_accepted (w' : world) (ped_text map_line : string) :
    valid_line f3 f4 f6 ->
    w_ped w' = (w_ped w ++ [ped_text])%list ->
    w_map w' = (w_map w ++ [map_line])%list ->
    w_stdout w' = w_stdout w ->
    round_outcome f3 f4 f6 g b w (Ok (g + 1, b), w')
| round_rejected (w' : world) (message : string) :
    valid_line f3 f4 f6 ->
    w_ped w' = w_ped w ->
    w_map w' = w_map w ->
    w_stdout w' = (w_stdout w ++ [message])%list ->
    round_outcome f3 f4 f6 g b w (Ok (g, b + 1), w').

Lemma parse_pileup_record_seven (each_record f0 f1 f2 f3 f4 f5 f6 : string)
      (g b : Z) (w : world) :
  Str.split " " (Str.rstrip each_record) = [f0; f1; f2; f3; f4; f5; f6] ->
  round_outcome f3 f4 f6 g b w
    (parse_pileup_record base_min_quality each_record (g, b) w).
Proof.
  intros Hcols. unfold parse_pileup_record. rewrite Hcols.
  rewrite (bind_ok _ _ _ _ _
             (pileup_ok_seven [f0; f1; f2; f3; f4; f5; f6] w eq_refl)).
  destruct (filter_line_outcome f0 f1 f2 f3 f4 f5 f6 w)
    as [Hraise | (name & snp_a & info4 & Hp)].
  { rewrite (bind_raise _ _ _ _ _ Hraise). apply round_fatal.
    intros [(n & a & i & Hp) _].
    rewrite (filter_line_seven f0 f1 f2 f3 f4 f5 f6 n a i w Hp) in Hraise.
    discriminate Hraise. }
  rewrite (bind_ok _ _ _ _ _ (filter_line_seven f0 f1 f2 f3 f4 f5 f6 _ _ _ w Hp)).
  set (snp_b := Str.rstrip_chars "]" info4).
  set (d1 := extracted f0 f1 f2 f3 f4 name snp_a snp_b).
  set (r := fresh (dom (w_heap w))).
  set (w1 := set_heap (<[r := d1]> (w_heap w)) w).
  assert (Hr : w_heap w1 !! r = Some d1) by apply lookup_insert_eq.
  assert (Ha : d1 !! "alleles" = Some (PStr (Str.upper f3))) by reflexivity.
  assert (Hq : d1 !! "base_qualities" = Some (PStr f4)) by reflexivity.
  assert (Hn : d1 !! "snp_name" = Some (PStr name)) by reflexivity.
  destruct (Nat.eq_dec (String.length (Str.upper f3)) (String.length f4))
    as [Hlen | Hlen].
  2:{ rewrite (bind_raise _ _ _ _ _
                 (check_bases_mismatch base_min_quality r d1 _ _ _ w1 Hr Ha Hq Hn
                    (not_eq_sym Hlen))).
      apply round_fatal. intros [_ E]. contradiction. }
  assert (Hex : valid_line f3 f4 f6)
    by (split; [exists name, snp_a, info4; exact Hp | exact Hlen]).
  rewrite (bind_ok _ _ _ _ _
             (check_bases_keep_pairs base_min_quality r d1 _ _ w1 Hr Ha Hq Hlen)).
  set (na := fst (keep_pairs base_min_quality (Str.upper f3) f4)).
  set (nq := snd (keep_pairs base_min_quality (Str.upper f3) f4)).
  set (w2 := stored r d1 na nq w1).
  destruct (record_lookups f0 f1 f2 f3 f4 name snp_a snp_b na nq)
    as (La & Ln & Ls & Lc & Lp).
  fold d1 in La, Ln, Ls, Lc, Lp.
  assert (Hr2 : w_heap w2 !! r
                = Some (<["alleles" := PStr na]> (<["base_qualities" := PStr nq]> d1)))
    by apply stored_lookup.
  rewrite (bind_ok _ _ _ _ _ (dict_get_ok _ _ _ _ _ Hr2 La)).
  cbn [py_len].
  destruct na as [| c0 na'] eqn:Ena.
  - cbn [String.length Nat.eqb negb].
    rewrite (bind_ok _ _ _ _ _ (dict_get_ok _ _ _ _ _ Hr2 Ln)).
    cbn [py_format].
    rewrite (bind_ok _ _ w2 (printed (name ++ " failed filters") w2) tt)
      by reflexivity.
    apply (round_rejected _ _ _ _ _ _ _ (name ++ " failed filters"));
      [exact Hex | reflexivity ..].
  - cbn [String.length Nat.eqb negb].
    rewrite (bind_ok _ _ _ _ _ (dict_get_ok _ _ _ _ _ Hr2 La)).
    destruct (find_max_base_chars (String c0 na') w2) as (c & Hrun & _);
      [discriminate |].
    rewrite (bind_ok _ _ _ _ _ Hrun).
    rewrite (bind_ok _ _ _ _ _ (dict_get_ok r _ _ _ (drawn w2) Hr2 Ls)).
    rewrite (bind_ok _ _ _ _ _ (allele_check_pair snp_a snp_b (one_char c) _)).
    destruct (String.eqb (one_char c) snp_a || String.eqb (one_char c) snp_b).
    + cbn [py_format].
      set (ped_text := " " ++ one_char c ++ " " ++ one_char c).
      set (w3 := World (w_heap w2) (w_stdout w2) (w_map w2)
                       (w_ped w2 ++ [ped_text]) (w_rng w2) (S (w_draws w2))).
      rewrite (bind_ok _ _ (drawn w2) w3 tt) by reflexivity.
      rewrite (bind_ok _ _ _ _ _ (dict_get_ok r _ _ _ w3 Hr2 Lc)).
      rewrite (bind_ok _ _ _ _ _ (dict_get_ok r _ _ _ w3 Hr2 Ln)).
      rewrite (bind_ok _ _ _ _ _ (dict_get_ok r _ _ _ w3 Hr2 Lp)).
      cbn [py_format].
      set (map_line := chrom_of f0 ++ one_char TAB ++ name ++ one_char TAB ++ "0"
                         ++ one_char TAB ++ f1 ++ one_char NL).
      rewrite (bind_ok _ _ w3 (World (w_heap w3) (w_stdout w3)
                                     (w_map w3 ++ [map_line]) (w_ped w3)
                                     (w_rng w3) (w_draws w3)) tt)
        by reflexivity.
      apply (round_accepted _ _ _ _ _ _ _ ped_text map_line);
        [exact Hex | reflexivity ..].
    + rewrite (bind_ok _ _ _ _ _ (dict_get_ok r _ _ _ (drawn w2) Hr2 Ln)).
      cbn [py_format].
      rewrite (bind_ok _ _ (drawn w2)
                 (printed (name ++ " possible tri-allele removed") (drawn w2)) tt)
        by reflexivity.
      apply (round_rejected _ _ _ _ _ _ _ (name ++ " possible tri-allele removed"));
        [exact Hex | reflexivity ..].
Qed.

(** A length mismatch between the upper-cased field 3 and field 4 of a
    line ends the loop at that line: the exception of [check_bases] is
    not caught. *)
Lemma length_mismatch_ends_loop (each_record f0 f1 f2 f3 f4 f5 f6 : string)
      (name snp_a info4 : string) (rest : list string) (g b : Z) (w : world) :
  Str.split " " (Str.rstrip each_record) = [f0; f1; f2; f3; f4; f5; f6] ->
  payload f6 name snp_a info4 ->
  String.length (Str.upper f3) <> String.length f4 ->
  exists w',
    parse_pileup_lines base_min_quality (each_record :: rest) (g, b) w
    = (Raise (SystemExit ("Error: Quals and bases differ at " ++ name ++ " stopping.")),
       w')
    /\ w_ped w' = w_ped w /\ w_map w' = w_map w /\ w_stdout w' = w_stdout w.
Proof.
  intros Hcols Hp Hlen.
  set (d1 := extracted f0 f1 f2 f3 f4 name snp_a (Str.rstrip_chars "]" info4)).
  set (r := fresh (dom (w_heap w))).
  set (w1 := set_heap (<[r := d1]> (w_heap w)) w).
  exists w1. split; [| repeat split].
  apply for_each_raise. unfold parse_pileup_record. rewrite Hcols.
  rewrite (bind_ok _ _ _ _ _
             (pileup_ok_seven [f0; f1; f2; f3; f4; f5; f6] w eq_refl)).
  rewrite (bind_ok _ _ _ _ _ (filter_line_seven f0 f1 f2 f3 f4 f5 f6 _ _ _ w Hp)).
  apply bind_raise.
  apply (check_bases_mismatch base_min_quality r d1 (Str.upper f3) f4 name w1).
  - apply lookup_insert_eq.
  - reflexivity.
  - reflexivity.
  - reflexivity.
  - exact (not_eq_sym Hlen).
Qed.

Lemma seven_fields (l : list string) :
  length l = 7%nat ->
  exists f0 f1 f2 f3 f4 f5 f6, l = [f0; f1; f2; f3; f4; f5; f6].
Proof.
  intros H.
  destruct l as [| f0 [| f1 [| f2 [| f3 [| f4 [| f5 [| f6 [| f7 l]]]]]]]];
    try discriminate H.
  exists f0, f1, f2, f3, f4, f5, f6. reflexivity.
Qed.

Lemma parse_pileup_record_marker (each_record : string) (g b : Z) (w : world) :
  is_marker (Str.split " " (Str.rstrip each_record)) ->
  exists count,
    nth_error (Str.split " " (Str.rstrip each_record)) 5 = Some count
    /\ parse_pileup_record base_min_quality each_record (g, b) w
       = (Ok (g, b), printed (reduce_notice count) w).
Proof.
  intros Hm. destruct (pileup_ok_marker _ w Hm) as (count & H5 & Hok).
  exists count. split; [exact H5 |].
  unfold parse_pileup_record. rewrite (bind_ok _ _ _ _ _ Hok). reflexivity.
Qed.

(** C10: one round of the loop of [parse_pileup_file].  On a line
    of seven fields that ends without an exception, either the
    accepted counter grows by one, the rejected counter stays, and
    exactly one string is appended to the PED file and one to the MAP
    file; or the rejected counter grows by one, the accepted counter
    stays, and neither file is written.  Such a line ends without an
    exception exactly when it is valid: its payload has its sub-fields
    and its field 3 in upper case, the alleles of the record, is as
    long as its field 4, the base qualities.  On a [[REDUCE] marker line
    the round ends without an exception, both counters stay and
    neither file is written (the notice is printed). *)
Theorem loop_round_counts (each_record : string) (g b : Z) (w : world) :
  let cols := Str.split " " (Str.rstrip each_record) in
  let round := parse_pileup_record base_min_quality each_record (g, b) w in
  (length cols = 7%nat ->
   forall (g' b' : Z) (w' : world),
     round = (Ok (g', b'), w') ->
     (g' = g + 1 /\ b' = b
      /\ exists ped_text map_line,
           w_ped w' = (w_ped w ++ [ped_text])%list
           /\ w_map w' = (w_map w ++ [map_line])%list)
     \/ (g' = g /\ b' = b + 1 /\ w_ped w' = w_ped w /\ w_map w' = w_map w))
  /\ (length cols = 7%nat ->
      ((exists g' b' w', round = (Ok (g', b'), w'))
       <-> valid_line (nth 3 cols "") (nth 4 cols "") (nth 6 cols "")))
  /\ (is_marker cols ->
      exists w', round = (Ok (g, b), w')
                 /\ w_ped w' = w_ped w /\ w_map w' = w_map w).
Proof.
  intros cols round. split; [| split].
  - intros H7 g' b' w' Hround.
    destruct (seven_fields cols H7) as (f0 & f1 & f2 & f3 & f4 & f5 & f6 & Hcols).
    pose proof (parse_pileup_record_seven each_record f0 f1 f2 f3 f4 f5 f6 g b w Hcols)
      as Hout.
    fold round in Hout. rewrite Hround in Hout.
    inversion Hout as [| w'' ped_text map_line _ Hped Hmap _
                       | w'' message _ Hped Hmap _]; subst.
    + left. split; [reflexivity |]. split; [reflexivity |].
      exists ped_text, map_line. split; assumption.
    + right. repeat split; assumption.
  - intros H7.
    destruct (seven_fields cols H7) as (f0 & f1 & f2 & f3 & f4 & f5 & f6 & Hcols).
    pose proof (parse_pileup_record_seven each_record f0 f1 f2 f3 f4 f5 f6 g b w Hcols)
      as Hout.
    fold round in Hout. rewrite Hcols. cbn [nth].
    inversion Hout as [e w' Hno Heq | w' ped_text map_line Hex _ _ _ Heq
                       | w' message Hex _ _ _ Heq].
    + split; [| contradiction].
      intros (g' & b' & w'' & E). unfold round in E. congruence.
    + split; [intros _; exact Hex | intros _; eauto].
    + split; [intros _; exact Hex | intros _; eauto].
  - intros Hm.
    destruct (parse_pileup_record_marker each_record g b w Hm) as (count & _ & Hrun).
    exists (printed (reduce_notice count) w).
    split; [exact Hrun | split; reflexivity].
Qed.

End RecordLoop.

(** * The theorems on concrete inputs *)

Section Examples.

Definition example_payload : string :=
  "?" ++ one_char TAB ++ "info" ++ one_char TAB ++ "rs1" ++ one_char TAB ++ "A"
    ++ one_char TAB ++ "G]".

(** The line of the end-to-end scenario of the specification. *)
Definition example_line : string :=
  "chr1 100 A AAAAG FFFFF x " ++ example_payload ++ one_char NL.

(** A record with a low quality (index 1) and a non-canonical allele
    (index 2), and the world that holds it at address 0. *)
Definition example_record : gmap string value :=
  extracted "chr1" "100" "A" "aaNGG" "F#FFF" "rs1" "A" "G".

Definition example_world : world :=
  set_heap (<[0%nat := example_record]> empty) world0.

(** A record whose base qualities are longer than its alleles. *)
Definition uneven_record : gmap string value :=
  extracted "chr1" "100" "A" "AAAA" "FFFFF" "rs1" "A" "G".

Definition uneven_world : world :=
  set_heap (<[0%nat := uneven_record]> empty) world0.

Lemma check_bases_keeps_passing_pairs_witness :
  check_bases 0%nat 30 example_world
  = (Ok 0%nat, stored 0%nat example_record "AGG" "FFF" example_world).
Proof.
  apply (proj1 (check_bases_keeps_passing_pairs 30 0%nat example_record
                  "AANGG" "F#FFF" example_world eq_refl eq_refl eq_refl eq_refl)).
Defined.

Lemma check_bases_length_guard_witness :
  check_bases 0%nat 30 uneven_world
  = (Raise (SystemExit "Error: Quals and bases differ at rs1 stopping."), uneven_world)
  /\ exists w', check_bases 0%nat 30 example_world = (Ok 0%nat, w').
Proof.
  split.
  - apply (proj1 (check_bases_length_guard 30 0%nat uneven_record "AAAA" "FFFFF" "rs1"
                    uneven_world eq_refl eq_refl eq_refl eq_refl)).
    simpl. lia.
  - apply (proj2 (check_bases_length_guard 30 0%nat example_record "AANGG" "F#FFF"
                    "rs1" example_world eq_refl eq_refl eq_refl eq_refl)).
    reflexivity.
Defined.

Lemma check_bases_idempotent_witness :
  exists w1 : world,
    check_bases 0%nat 30 example_world = (Ok 0%nat, w1)
    /\ check_bases 0%nat 30 w1 = (Ok 0%nat, w1)
    /\ (let* r1 := check_bases 0%nat 30 in check_bases r1 30) example_world
       = check_bases 0%nat 30 example_world.
Proof.
  apply (check_bases_idempotent 30 0%nat example_record "AANGG" "F#FFF"
           example_world eq_refl eq_refl eq_refl eq_refl).
Defined.

Lemma check_bases_frame_witness :
  exists (w' : world) (d' : gmap string value),
    check_bases 0%nat 30 example_world = (Ok 0%nat, w')
    /\ w_heap w' !! 0%nat = Some d'
    /\ d' !! "snp_name" = Some (PStr "rs1")
    /\ d' !! "snps" = Some (PTuple "A" "G")
    /\ d' !! "chrom" = Some (PStr "1").
Proof.
  destruct (check_bases_frame 30 0%nat example_record "AANGG" "F#FFF"
              example_world eq_refl eq_refl eq_refl eq_refl)
    as (w' & d' & Hrun & Hd & _ & (Hc & _ & _ & Hn & Hs) & _).
  exists w', d'. repeat split; assumption.
Defined.

Lemma find_max_base_mode_witness :
  (exists c : ascii,
      find_max_base (PStr "AGGTG") world0 = (Ok (PStr (one_char c)), drawn world0)
      /\ (0 < count_char c "AGGTG")%nat
      /\ forall c' : ascii, (count_char c' "AGGTG" <= count_char c "AGGTG")%nat)
  /\ find_max_base (PStr "AGGTG") world0 = (Ok (PStr "G"), drawn world0).
Proof.
  split.
  - apply (proj1 find_max_base_mode "AGGTG" world0). discriminate.
  - apply (proj1 (proj2 find_max_base_mode) "AGGTG" "G"%char world0).
    intros c' Hne. simpl.
    destruct (Ascii.eqb_spec c' "G") as [-> | _]; [contradiction |].
    destruct (Ascii.eqb c' "A"), (Ascii.eqb c' "T"); lia.
Defined.

Lemma example_payload_fields : payload example_payload "rs1" "A" "G]".
Proof. repeat split. Qed.

Lemma example_line_valid : valid_line "aaNGG" "F#FFF" example_payload.
Proof.
  split; [exists "rs1", "A", "G]"; exact example_payload_fields | reflexivity].
Qed.

Lemma extraction_then_filter_lengths_witness :
  valid_line "aaNGG" "F#FFF" example_payload
  /\ exists (r : loc) (w1 : world) (d1 : gmap string value),
       filter_line ["chr1"; "100"; "A"; "aaNGG"; "F#FFF"; "x"; example_payload] world0
       = (Ok r, w1)
       /\ w_heap w1 !! r = Some d1
       /\ d1 !! "alleles" = Some (PStr "AANGG")
       /\ d1 !! "base_qualities" = Some (PStr "F#FFF")
       /\ exists (w2 : world) (d2 : gmap string value) (a2 q2 : string),
            check_bases r 30 w1 = (Ok r, w2)
            /\ w_heap w2 !! r = Some d2
            /\ d2 !! "alleles" = Some (PStr a2)
            /\ d2 !! "base_qualities" = Some (PStr q2)
            /\ String.length a2 = String.length q2.
Proof.
  split; [exact example_line_valid |].
  destruct (extraction_then_filter_lengths "chr1" "100" "A" "aaNGG" "F#FFF" "x"
              example_payload 30 world0 example_line_valid)
    as (r & w1 & d1 & a1 & q1 & Hrun & Hr & Ha & Hq & -> & -> & _ & Hkept).
  exists r, w1, d1. repeat (split; [assumption |]). exact Hkept.
Defined.

Definition uneven_line : list string :=
  ["chr1"; "100"; "A"; "AG"; "F"; "x"; example_payload].

(** A line of seven fields that is not valid: [pileup_ok] accepts it,
    the record [filter_line] makes of it has two alleles and one base
    quality, and [check_bases] ends the run on it. *)
Lemma uneven_line_is_fatal :
  pileup_ok uneven_line world0 = (Ok true, world0)
  /\ ~ valid_line "AG" "F" example_payload
  /\ exists (r : loc) (w1 : world) (d1 : gmap string value),
       filter_line uneven_line world0 = (Ok r, w1)
       /\ w_heap w1 !! r = Some d1
       /\ d1 !! "alleles" = Some (PStr "AG")
       /\ d1 !! "base_qualities" = Some (PStr "F")
       /\ check_bases r 30 w1
          = (Raise (SystemExit "Error: Quals and bases differ at rs1 stopping."), w1).
Proof.
  split; [reflexivity |]. split; [intros [_ H]; discriminate H |].
  exists 0%nat,
    (set_heap (<[0%nat := extracted "chr1" "100" "A" "AG" "F" "rs1" "A" "G"]> empty)
       world0),
    (extracted "chr1" "100" "A" "AG" "F" "rs1" "A" "G").
  repeat split; reflexivity.
Qed.

Lemma chrom_of_removes_occurrences_witness :
  token_free (remove_all "chrUn_NC_019458")
  /\ chrom_of "chrUn_NC_019458" = "Un_NC_019458"
  /\ (forall t1 t2 t3 : token,
         token_eqb t1 t2 = false -> token_eqb t1 t3 = false ->
         token_eqb t2 t3 = false ->
         remove3 t1 t2 t3 "chrUn_NC_019458" = chrom_of "chrUn_NC_019458")
  /\ token_free (chrom_of "chrUn_NC_019458").
Proof.
  assert (Hfree : token_free (remove_all "chrUn_NC_019458"))
    by (intros []; reflexivity).
  split; [exact Hfree |].
  exact (proj1 chrom_of_removes_occurrences "chrUn_NC_019458" Hfree).
Defined.

(** Names in which one of [c], [C] and [O] is not followed by the rest
    of its substring: nothing is brought together, and the order of the
    removals does not matter. *)
Example chrom_of_scaffold_names :
  token_free (remove_all "scaffold_12") /\ chrom_of "scaffold_12" = "scaffold_12"
  /\ token_free (remove_all "Contig7") /\ chrom_of "Contig7" = "Contig7"
  /\ token_free (remove_all "chrOAR1") /\ remove_all "chrOAR1" = "1"
  /\ ~ token_free (remove_all "cOARhr").
Proof.
  repeat split; try (intros []; reflexivity).
  intros H. discriminate (H Tchr).
Qed.

(** The uneven line as the loop reads it. *)
Definition uneven_text : string := "chr1 100 A AG F x " ++ example_payload.

Lemma loop_round_counts_witness :
  (exists w', parse_pileup_record 30 example_line (0, 0) world0 = (Ok (1, 0), w')
              /\ exists ped_text map_line,
                   w_ped w' = (w_ped world0 ++ [ped_text])%list
                   /\ w_map w' = (w_map world0 ++ [map_line])%list)
  /\ valid_line "AAAAG" "FFFFF" example_payload
  /\ (~ valid_line "AG" "F" example_payload
      /\ ~ exists g' b' w',
            parse_pileup_record 30 uneven_text (0, 0) world0 = (Ok (g', b'), w'))
  /\ (exists w', parse_pileup_record 30 "[REDUCE a b c d 12" (0, 0) world0
                 = (Ok (0, 0), w')
                 /\ w_ped w' = w_ped world0 /\ w_map w' = w_map world0).
Proof.
  split; [| split; [| split]].
  - exists (snd (parse_pileup_record 30 example_line (0, 0) world0)).
    split; [vm_compute; reflexivity |].
    destruct (proj1 (loop_round_counts 30 example_line 0 0 world0) eq_refl 1 0
                (snd (parse_pileup_record 30 example_line (0, 0) world0)))
      as [(_ & _ & H) | (H & _)].
    + vm_compute. reflexivity.
    + exact H.
    + discriminate H.
  - apply (proj1 (proj1 (proj2 (loop_round_counts 30 example_line 0 0 world0))
                    eq_refl)).
    exists 1, 0, (snd (parse_pileup_record 30 example_line (0, 0) world0)).
    vm_compute. reflexivity.
  - assert (Hno : ~ valid_line "AG" "F" example_payload)
      by (intros [_ H]; discriminate H).
    split; [exact Hno |]. intros Hok. apply Hno.
    exact (proj1 (proj1 (proj2 (loop_round_counts 30 uneven_text 0 0 world0))
                    eq_refl) Hok).
  - apply (proj2 (proj2 (loop_round_counts 30 "[REDUCE a b c d 12" 0 0 world0))).
    split; reflexivity.
Defined.

(** The end-to-end scenario of the specification: the line is
    accepted, the MAP file gets the marker line and the PED file the
    called allele twice. *)
Example end_to_end_accepted :
  let '(out, w) := parse_pileup_lines 30 [example_line] (0, 0) world0 in
  out = Ok (1, 0)
  /\ w_map w = ["1" ++ one_char TAB ++ "rs1" ++ one_char TAB ++ "0"
                  ++ one_char TAB ++ "100" ++ one_char NL]
  /\ w_ped w = [" A A"]
  /\ w_stdout w = [].
Proof. vm_compute. repeat split. Qed.

(** A line whose qualities all decode below the threshold: the round
    rejects it as failed filters and writes nothing. *)
Example end_to_end_failed_filters :
  let '(out, w) :=
    parse_pileup_lines 30 ["chr1 100 A AAAAG ##### x " ++ example_payload] (0, 0) world0 in
  out = Ok (0, 1)
  /\ w_map w = [] /\ w_ped w = []
  /\ w_stdout w = ["rs1 failed filters"].
Proof. vm_compute. repeat split. Qed.

(** A line of five fields after an accepted line: the run stops there
    with the malformed-file error, and what the accepted line wrote is
    still there. *)
Example end_to_end_malformed :
  let '(out, w) :=
    parse_pileup_lines 30 [example_line; "chr1 100 A AAAAG FFFFF"; example_line]
      (0, 0) world0 in
  out = Raise malformed
  /\ w_ped w = [" A A"]
  /\ length (w_map w) = 1%nat.
Proof. vm_compute. repeat split. Qed.

(** The whole conversion of a file of one line. *)
Example end_to_end_file :
  let '(out, w) := parse_pileup_file "sample.pileup" [example_line] "XXX" 30 world0 in
  out = Ok tt
  /\ w_ped w = ["XXX XXX 0 0 0 -9"; " A A"; one_char NL]
  /\ length (w_map w) = 1%nat
  /\ length (w_stdout w) = 1%nat.
Proof. vm_compute. repeat split. Qed.

End Examples.

(** * More on the quality filter *)

Section FilterMore.

(** What [keep_pairs] keeps passes the test, pair by pair. *)
Lemma keep_pairs_get (cutoff : Z) (alleles : string) :
  forall (quals : string) (i : nat) (a q : ascii),
    String.get i (fst (keep_pairs cutoff alleles quals)) = Some a ->
    String.get i (snd (keep_pairs cutoff alleles quals)) = Some q ->
    passes cutoff a q = true.
Proof.
  induction alleles as [| a0 alleles IH]; intros [| q0 quals] i a q;
    try (simpl; discriminate).
  cbn [keep_pairs]. destruct (passes cutoff a0 q0) eqn:E; cbn [fst snd].
  - destruct i as [| i]; simpl.
    + intros Ha Hq. injection Ha as <-. injection Hq as <-. exact E.
    + apply IH.
  - apply IH.
Qed.

Lemma keep_pairs_shorter (cutoff : Z) (alleles : string) :
  forall quals : string,
    (String.length (fst (keep_pairs cutoff alleles quals)) <= String.length alleles)%nat.
Proof.
  induction alleles as [| a0 alleles IH]; intros [| q0 quals]; simpl; try lia.
  specialize (IH quals). destruct (passes cutoff a0 q0); simpl; lia.
Qed.

(** When every pair passes, nothing is dropped. *)
Lemma keep_pairs_all (cutoff : Z) (alleles : string) :
  forall quals : string,
    String.length alleles = String.length quals ->
    (forall (i : nat) (a q : ascii),
        String.get i alleles = Some a -> String.get i quals = Some q ->
        passes cutoff a q = true) ->
    keep_pairs cutoff alleles quals = (alleles, quals).
Proof.
  induction alleles as [| a0 alleles IH]; intros [| q0 quals] Hlen Hall;
    try discriminate Hlen; [reflexivity |].
  cbn [keep_pairs]. rewrite (Hall 0%nat a0 q0 eq_refl eq_refl).
  rewrite IH; [reflexivity | simpl in Hlen; lia |].
  intros i a q Ha Hq. apply (Hall (S i)); assumption.
Qed.

(** Two thresholds one after the other are the larger one. *)
Lemma passes_max (c1 c2 : Z) (a q : ascii) :
  passes (Z.max c1 c2) a q = passes c1 a q && passes c2 a q.
Proof.
  unfold passes. destruct (canonical a); rewrite ?andb_true_r, ?andb_false_r;
    [| reflexivity].
  destruct (Z.leb_spec c1 (Str.ord q - 33)), (Z.leb_spec c2 (Str.ord q - 33)),
    (Z.leb_spec (Z.max c1 c2) (Str.ord q - 33)); try reflexivity; lia.
Qed.

Lemma keep_pairs_compose (c1 c2 : Z) (alleles : string) :
  forall quals : string,
    keep_pairs c2 (fst (keep_pairs c1 alleles quals)) (snd (keep_pairs c1 alleles quals))
    = keep_pairs (Z.max c1 c2) alleles quals.
Proof.
  induction alleles as [| a0 alleles IH]; intros [| q0 quals]; try reflexivity.
  cbn [keep_pairs]. rewrite passes_max.
  destruct (passes c1 a0 q0); cbn [fst snd andb keep_pairs]; [| apply IH].
  rewrite IH. reflexivity.
Qed.

(** Storing twice at the two keys is storing the last strings. *)
Lemma stored_twice (r : loc) (d : gmap string value) (a1 q1 a2 q2 : string) (w : world) :
  stored r (<["alleles" := PStr a1]> (<["base_qualities" := PStr q1]> d)) a2 q2
    (stored r d a1 q1 w)
  = stored r d a2 q2 w.
Proof.
  unfold stored, set_heap. cbn [w_heap w_stdout w_map w_ped w_rng w_draws].
  rewrite insert_insert_eq. do 2 f_equal.
  apply map_eq. intros k.
  destruct (decide (k = "alleles")) as [-> | Hk1];
    [rewrite !lookup_insert_eq; reflexivity |].
  rewrite !(lookup_insert_ne _ "alleles") by congruence.
  destruct (decide (k = "base_qualities")) as [-> | Hk2];
    [rewrite !lookup_insert_eq; reflexivity |].
  rewrite !lookup_insert_ne by congruence. reflexivity.
Qed.

Lemma set_heap_same (w : world) : set_heap (w_heap w) w = w.
Proof. destruct w. reflexivity. Qed.

(** X1: after [check_bases] on a record whose two strings have the
    same length, the record holds alleles and base qualities of equal
    length, no longer than before, and at every index the quality
    decodes to at least the threshold and the allele is one of A, G,
    T, C. *)
Theorem check_bases_survivors_pass (cutoff : Z) (r : loc) (d : gmap string value)
        (alleles quals : string) (w : world) :
  w_heap w !! r = Some d ->
  d !! "alleles" = Some (PStr alleles) ->
  d !! "base_qualities" = Some (PStr quals) ->
  String.length alleles = String.length quals ->
  exists (w' : world) (d' : gmap string value) (na nq : string),
    check_bases r cutoff w = (Ok r, w')
    /\ w_heap w' !! r = Some d'
    /\ d' !! "alleles" = Some (PStr na)
    /\ d' !! "base_qualities" = Some (PStr nq)
    /\ String.length na = String.length nq
    /\ (String.length na <= String.length alleles)%nat
    /\ forall (i : nat) (a q : ascii),
         String.get i na = Some a -> String.get i nq = Some q ->
         cutoff <= Str.ord q - 33
         /\ (a = "A"%char \/ a = "G"%char \/ a = "T"%char \/ a = "C"%char).
Proof.
  intros Hr Ha Hq Hlen.
  exists (stored r d (fst (keep_pairs cutoff alleles quals))
                 (snd (keep_pairs cutoff alleles quals)) w),
         (filtered cutoff d alleles quals),
         (fst (keep_pairs cutoff alleles quals)),
         (snd (keep_pairs cutoff alleles quals)).
  split; [apply check_bases_keep_pairs; assumption |].
  split; [apply stored_lookup |].
  split; [apply lookup_insert_eq |].
  split; [unfold filtered; rewrite lookup_insert_ne by discriminate;
          apply lookup_insert_eq |].
  split; [apply keep_pairs_length |].
  split; [apply keep_pairs_shorter |].
  intros i a q Gi Gq. apply passes_iff.
  apply (keep_pairs_get cutoff alleles quals i a q Gi Gq).
Qed.

(** X2: [check_bases] with one threshold and then with another leaves
    the world that one [check_bases] with the larger threshold
    leaves. *)
Theorem check_bases_two_thresholds (c1 c2 : Z) (r : loc) (d : gmap string value)
        (alleles quals : string) (w : world) :
  w_heap w !! r = Some d ->
  d !! "alleles" = Some (PStr alleles) ->
  d !! "base_qualities" = Some (PStr quals) ->
  String.length alleles = String.length quals ->
  (let* r1 := check_bases r c1 in check_bases r1 c2) w
  = check_bases r (Z.max c1 c2) w.
Proof.
  intros Hr Ha Hq Hlen.
  rewrite (bind_ok _ _ _ _ _ (check_bases_keep_pairs c1 r d alleles quals w Hr Ha Hq Hlen)).
  rewrite (check_bases_keep_pairs (Z.max c1 c2) r d alleles quals w Hr Ha Hq Hlen).
  set (na := fst (keep_pairs c1 alleles quals)).
  set (nq := snd (keep_pairs c1 alleles quals)).
  rewrite (check_bases_keep_pairs c2 r _ na nq _ (stored_lookup r d na nq w)).
  - unfold na, nq. rewrite keep_pairs_compose, stored_twice. reflexivity.
  - apply lookup_insert_eq.
  - rewrite lookup_insert_ne by discriminate. apply lookup_insert_eq.
  - apply keep_pairs_length.
Qed.

(** X3: a record without the key [base_qualities], or with it and
    without [alleles], makes [check_bases] raise [KeyError] for that
    key; so does a record whose two lengths differ and that has no
    [snp_name] to name in the message.  The world is left as it was. *)
Theorem check_bases_missing_key (cutoff : Z) (r : loc) (d : gmap string value)
        (w : world) :
  w_heap w !! r = Some d ->
  (d !! "base_qualities" = None ->
   check_bases r cutoff w = (Raise (KeyError "base_qualities"), w))
  /\ (forall quals : value,
         d !! "base_qualities" = Some quals -> d !! "alleles" = None ->
         check_bases r cutoff w = (Raise (KeyError "alleles"), w))
  /\ (forall quals alleles : value,
         d !! "base_qualities" = Some quals -> d !! "alleles" = Some alleles ->
         py_len quals <> py_len alleles -> d !! "snp_name" = None ->
         check_bases r cutoff w = (Raise (KeyError "snp_name"), w)).
Proof.
  intros Hr.
  assert (Hmiss : forall key, d !! key = None ->
                    dict_get r key w = (Raise (KeyError key), w)).
  { intros key Hk. unfold dict_get. rewrite Hr, Hk. reflexivity. }
  split; [| split].
  - intros Hq. unfold check_bases.
    apply bind_raise, Hmiss, Hq.
  - intros quals Hq Ha. unfold check_bases.
    rewrite (bind_ok _ _ _ _ _ (dict_get_ok _ _ _ _ _ Hr Hq)).
    apply bind_raise, Hmiss, Ha.
  - intros quals alleles Hq Ha Hlen Hn. unfold check_bases.
    rewrite (bind_ok _ _ _ _ _ (dict_get_ok _ _ _ _ _ Hr Hq)).
    rewrite (bind_ok _ _ _ _ _ (dict_get_ok _ _ _ _ _ Hr Ha)).
    apply Nat.eqb_neq in Hlen. rewrite Hlen. cbn [negb].
    apply bind_raise, Hmiss, Hn.
Qed.

(** X4: a record in which every (allele, quality) pair passes is left
    exactly as it is, and so is the whole world. *)
Theorem check_bases_nothing_to_drop (cutoff : Z) (r : loc) (d : gmap string value)
        (alleles quals : string) (w : world) :
  w_heap w !! r = Some d ->
  d !! "alleles" = Some (PStr alleles) ->
  d !! "base_qualities" = Some (PStr quals) ->
  String.length alleles = String.length quals ->
  (forall (i : nat) (a q : ascii),
      String.get i alleles = Some a -> String.get i quals = Some q ->
      cutoff <= Str.ord q - 33
      /\ (a = "A"%char \/ a = "G"%char \/ a = "T"%char \/ a = "C"%char)) ->
  check_bases r cutoff w = (Ok r, w).
Proof.
  intros Hr Ha Hq Hlen Hall.
  rewrite (check_bases_keep_pairs cutoff r d alleles quals w Hr Ha Hq Hlen).
  rewrite (keep_pairs_all cutoff alleles quals Hlen)
    by (intros i a q Gi Gq; apply passes_iff; eapply Hall; eassumption).
  cbn [fst snd]. unfold stored.
  rewrite (insert_id d "base_qualities" _ Hq), (insert_id d "alleles" _ Ha).
  rewrite (insert_id (w_heap w) r d Hr), set_heap_same. reflexivity.
Qed.

End FilterMore.

(** * More on the consensus caller *)

Section ConsensusMore.

(** The alleles [find_max_base] chooses among. *)
Definition tied (l : list value) : list value :=
  match most_common (Counter l) with
  | [] => []
  | top :: rest =>
      map fst (List.filter (fun e => (snd e =? snd top)%nat) (top :: rest))
  end.

Lemma find_max_base_tied (alleles : value) (w : world) :
  py_iter alleles <> [] ->
  find_max_base alleles w = random_choice (tied (py_iter alleles)) w.
Proof.
  intros Hne. unfold find_max_base, tied.
  destruct (most_common (Counter (py_iter alleles))) as [| top rest] eqn:E.
  - exfalso. destruct (py_iter alleles) as [| y l] eqn:El; [congruence |].
    destruct (Counter_spec (y :: l)) as [_ Hc].
    pose proof (occurrences_pos y (y :: l) (or_introl eq_refl)) as Hpos.
    rewrite <- Hc in Hpos. apply entry_of_count in Hpos.
    apply (Permutation_in _ (Permutation_sym (most_common_perm _))) in Hpos.
    rewrite E in Hpos. destruct Hpos.
  - rewrite (bind_ok _ _ w w top) by reflexivity.
    rewrite (bind_ok _ _ _ _ _ (collect_max (snd top) (top :: rest) [] w)).
    reflexivity.
Qed.

(** An element with the largest number of occurrences is among the
    tied ones. *)
Lemma tied_holds_max (l : list value) (x : value) :
  In x l ->
  (forall y, (occurrences y l <= occurrences x l)%nat) ->
  In x (tied l).
Proof.
  intros Hx Hmax. unfold tied.
  destruct (Counter_spec l) as [Hnd Hcount].
  pose proof (most_common_perm (Counter l)) as Hperm.
  pose proof (most_common_head (Counter l)) as Hhead.
  assert (Hentry : In (x, occurrences x l) (most_common (Counter l))).
  { apply (Permutation_in _ (Permutation_sym Hperm)).
    rewrite <- Hcount. apply entry_of_count. rewrite Hcount.
    apply occurrences_pos, Hx. }
  destruct (most_common (Counter l)) as [| top rest] eqn:E; [destruct Hentry |].
  assert (Htop : snd top = occurrences (fst top) l).
  { rewrite <- Hcount. symmetry. apply count_of_entry; [exact Hnd |].
    apply (Permutation_in _ Hperm). left. destruct top; reflexivity. }
  apply in_map_iff. exists (x, occurrences x l). split; [reflexivity |].
  apply List.filter_In. split; [exact Hentry |].
  apply Nat.eqb_eq. cbn [snd].
  pose proof (Hhead _ Hentry) as H1. cbn [snd] in H1.
  specialize (Hmax (fst top)). lia.
Qed.

(** [random_choice] returns the element at the index the generator
    draws, when that index is in range. *)
(** The allele called depends on the generator only. *)
Lemma random_choice_same_draw {A} (l : list A) (x : A) (w1 w2 : world) :
  w_rng w1 = w_rng w2 -> w_draws w1 = w_draws w2 ->
  random_choice l w1 = (Ok x, drawn w1) -> random_choice l w2 = (Ok x, drawn w2).
Proof.
  intros Hr Hd. unfold random_choice. rewrite Hr, Hd.
  destruct (nth_error l (w_rng w2 (w_draws w2) mod length l)%nat) as [y |];
    [| discriminate].
  intros H. injection H as -> _. reflexivity.
Qed.

Lemma find_max_base_same_draw (alleles x : value) (w1 w2 : world) :
  py_iter alleles <> [] ->
  w_rng w1 = w_rng w2 -> w_draws w1 = w_draws w2 ->
  find_max_base alleles w1 = (Ok x, drawn w1) ->
  find_max_base alleles w2 = (Ok x, drawn w2).
Proof.
  intros Hne Hr Hd. rewrite !find_max_base_tied by exact Hne.
  apply random_choice_same_draw; assumption.
Qed.

Lemma random_choice_at {A} (l : list A) (i : nat) (x : A) (w : world) :
  nth_error l i = Some x ->
  w_rng w (w_draws w) = i ->
  random_choice l w = (Ok x, drawn w).
Proof.
  intros Hi Hw. unfold random_choice. rewrite Hw.
  assert (i < length l)%nat by (apply nth_error_Some; congruence).
  rewrite Nat.mod_small by assumption. rewrite Hi. reflexivity.
Qed.

(** X5: [find_max_base] returns an allele exactly when the string of
    alleles is not empty; on the empty string it raises [IndexError]
    before any draw of the generator. *)
Theorem find_max_base_returns_iff (s : string) (w : world) :
  ((exists (x : value) (w' : world), find_max_base (PStr s) w = (Ok x, w'))
   <-> s <> EmptyString)
  /\ (s = EmptyString -> find_max_base (PStr s) w = (Raise IndexError, w)).
Proof.
  split; [split |].
  - intros (x & w' & H) ->. discriminate H.
  - intros Hne. destruct (find_max_base_chars s w Hne) as (c & Hrun & _).
    eauto.
  - intros ->. reflexivity.
Qed.

(** X6: the tie is really open: every character whose number of
    occurrences is the largest in the string is returned for some draw
    of the generator. *)
Theorem find_max_base_any_tied (s : string) (c : ascii) :
  (0 < count_char c s)%nat ->
  (forall c' : ascii, (count_char c' s <= count_char c s)%nat) ->
  exists i : nat,
    forall w : world,
      w_rng w (w_draws w) = i ->
      find_max_base (PStr s) w = (Ok (PStr (one_char c)), drawn w).
Proof.
  intros Hpos Hmax.
  assert (Hin : In (PStr (one_char c)) (py_iter (PStr s)))
    by (apply occurrences_in; rewrite occurrences_chars; exact Hpos).
  assert (Hne : py_iter (PStr s) <> [])
    by (intros E; rewrite E in Hin; destruct Hin).
  assert (Htied : In (PStr (one_char c)) (tied (py_iter (PStr s)))).
  { apply tied_holds_max; [exact Hin |].
    intros y. rewrite occurrences_chars.
    destruct (Nat.eq_0_gt_0_cases (occurrences y (py_iter (PStr s)))) as [-> | Hy];
      [lia |].
    apply occurrences_in in Hy. destruct (iter_chars y s Hy) as (c' & ->).
    rewrite occurrences_chars. apply Hmax. }
  apply In_nth_error in Htied as (i & Hi).
  exists i. intros w Hw.
  rewrite (find_max_base_tied (PStr s) w Hne).
  apply (random_choice_at _ i _ w Hi Hw).
Qed.

End ConsensusMore.

(** * More on the string operations the script uses *)

Section StringOperations.

(** The last character of a string. *)
Fixpoint last_char (s : string) : option ascii :=
  match s with
  | EmptyString => None
  | String c EmptyString => Some c
  | String _ s' => last_char s'
  end.

(** Every character of [s] satisfies [p]. *)
Definition all_chars (p : ascii -> bool) (s : string) : bool :=
  forallb p (list_ascii_of_string s).

Lemma split_length (sep : ascii) (s : string) :
  length (Str.split sep s) = S (count_char sep s).
Proof.
  induction s as [| c s IH]; [reflexivity |].
  cbn [Str.split count_char]. rewrite (Ascii.eqb_sym sep c).
  destruct (Ascii.eqb c sep).
  - cbn [length]. rewrite IH. reflexivity.
  - destruct (Str.split sep s) as [| piece rest]; [discriminate IH |].
    cbn [length] in *. lia.
Qed.

Lemma split_join (sep : ascii) (s : string) :
  String.concat (one_char sep) (Str.split sep s) = s.
Proof.
  induction s as [| c s IH]; [reflexivity |].
  cbn [Str.split]. destruct (Ascii.eqb_spec c sep) as [-> | Hne].
  - pose proof (split_length sep s) as Hl.
    destruct (Str.split sep s) as [| piece rest]; [discriminate Hl |].
    cbn [String.concat]. cbn [String.concat] in IH.
    rewrite str_app_nil_l. unfold one_char at 1. rewrite str_app_cons, str_app_nil_l.
    f_equal. exact IH.
  - pose proof (split_length sep s) as Hl.
    destruct (Str.split sep s) as [| piece rest]; [discriminate Hl |].
    destruct rest as [| piece2 rest].
    + cbn [String.concat] in *. rewrite IH. reflexivity.
    + cbn [String.concat] in *. rewrite str_app_cons, IH. reflexivity.
Qed.

Lemma rstrip_by_app (p : ascii -> bool) (s : string) :
  forall t : string,
    all_chars p t = true -> Str.rstrip_by p (s ++ t) = Str.rstrip_by p s.
Proof.
  assert (Hall : forall t, all_chars p t = true -> Str.rstrip_by p t = EmptyString).
  { induction t as [| c t IH]; [reflexivity |].
    unfold all_chars. cbn [list_ascii_of_string forallb].
    intros H. apply andb_true_iff in H as [Hc Ht].
    cbn [Str.rstrip_by]. rewrite (IH Ht), Hc. reflexivity. }
  induction s as [| c s IH]; intros t Ht.
  - rewrite str_app_nil_l. apply Hall, Ht.
  - rewrite str_app_cons. cbn [Str.rstrip_by]. rewrite (IH t Ht). reflexivity.
Qed.

(** [rstrip_by] drops a suffix of characters to strip, and what it
    returns does not end with one. *)
Lemma rstrip_by_spec (p : ascii -> bool) (s : string) :
  (exists t : string, s = Str.rstrip_by p s ++ t /\ all_chars p t = true)
  /\ (forall c : ascii, last_char (Str.rstrip_by p s) = Some c -> p c = false).
Proof.
  induction s as [| c s [(t & Hs & Ht) Hlast]].
  - split; [exists EmptyString; split; reflexivity | discriminate].
  - cbn [Str.rstrip_by].
    destruct (Str.rstrip_by p s) as [| c1 r1] eqn:E.
    + rewrite str_app_nil_l in Hs. subst t.
      destruct (p c) eqn:Ec.
      * split; [| discriminate].
        exists (String c s). split; [reflexivity |].
        unfold all_chars in *. cbn [list_ascii_of_string forallb].
        rewrite Ec, Ht. reflexivity.
      * split.
        -- exists s. split; [reflexivity | exact Ht].
        -- intros c' H. cbn [last_char] in H. injection H as <-. exact Ec.
    + split.
      * exists t. split; [| exact Ht]. rewrite str_app_cons, <- Hs. reflexivity.
      * intros c' H. apply Hlast. exact H.
Qed.

(** A character of an upper-cased string is no lower-case letter. *)
Lemma upper_char_not_lower (c : ascii) :
  let n := nat_of_ascii (Str.upper_char c) in ~ (97 <= n <= 122)%nat.
Proof.
  unfold Str.upper_char. cbv zeta.
  destruct ((97 <=? nat_of_ascii c)%nat && (nat_of_ascii c <=? 122)%nat) eqn:E.
  - apply andb_true_iff in E as [E1 E2].
    apply Nat.leb_le in E1, E2.
    rewrite nat_ascii_embedding by lia. lia.
  - apply andb_false_iff in E as [E | E]; apply Nat.leb_gt in E; lia.
Qed.

Lemma upper_get (s : string) :
  forall (i : nat) (c : ascii),
    String.get i (Str.upper s) = Some c ->
    exists c0, String.get i s = Some c0 /\ c = Str.upper_char c0.
Proof.
  induction s as [| c0 s IH]; intros i c; [discriminate |].
  destruct i as [| i]; simpl.
  - intros H. injection H as <-. exists c0. split; reflexivity.
  - apply IH.
Qed.

(** Without an occurrence of [old], [replace] changes nothing; with
    the empty replacement it never makes the string longer. *)
Lemma replace_from_absent (old new : string) (s : string) :
  Str.contains old s = false -> Str.replace_from old new 0 s = s.
Proof.
  induction s as [| c s IH]; [reflexivity |].
  cbn [Str.contains Str.replace_from]. intros H.
  apply orb_false_iff in H as [Hp Hc]. rewrite Hp, (IH Hc). reflexivity.
Qed.

Lemma replace_from_shorter (old : string) (s : string) :
  forall skip : nat,
    (String.length (Str.replace_from old "" skip s) <= String.length s)%nat.
Proof.
  induction s as [| c s IH]; intros skip; [simpl; lia |].
  cbn [Str.replace_from]. destruct skip as [| k].
  - destruct (String.prefix old (String c s)).
    + rewrite str_app_nil_l. specialize (IH (String.length old - 1)%nat).
      simpl. lia.
    + specialize (IH 0%nat). simpl. lia.
  - specialize (IH k). simpl. lia.
Qed.

Lemma replace_from_present (o : ascii) (old' : string) (s : string) :
  Str.contains (String o old') s = true ->
  (String.length (Str.replace_from (String o old') "" 0 s) < String.length s)%nat.
Proof.
  induction s as [| c s IH]; [discriminate |].
  cbn [Str.contains Str.replace_from]. intros H.
  destruct (String.prefix (String o old') (String c s)).
  - rewrite str_app_nil_l.
    pose proof (replace_from_shorter (String o old') s
                  (String.length (String o old') - 1)).
    simpl in *. lia.
  - cbn [orb] in H. specialize (IH H). simpl. lia.
Qed.

End StringOperations.

(** * More on extraction *)

Section ExtractionMore.

(** [filter_line] reads the fields 0 to 4 and 6 only. *)
Lemma filter_line_longer (f0 f1 f2 f3 f4 f5 f6 : string) (rest : list string)
      (w : world) :
  filter_line (f0 :: f1 :: f2 :: f3 :: f4 :: f5 :: f6 :: rest) w
  = filter_line [f0; f1; f2; f3; f4; f5; f6] w.
Proof. reflexivity. Qed.

Lemma filter_line_short (l : list string) (w : world) :
  (length l < 7)%nat -> filter_line l w = (Raise IndexError, w).
Proof.
  intros H. unfold filter_line. apply bind_raise. unfold list_getitem.
  replace (nth_error l 6) with (@None string); [reflexivity |].
  symmetry. apply nth_error_None. lia.
Qed.

Lemma seven_or_more (l : list string) :
  (7 <= length l)%nat ->
  exists f0 f1 f2 f3 f4 f5 f6 rest, l = f0 :: f1 :: f2 :: f3 :: f4 :: f5 :: f6 :: rest.
Proof.
  intros H.
  destruct l as [| f0 [| f1 [| f2 [| f3 [| f4 [| f5 [| f6 rest]]]]]]];
    simpl in H; try lia.
  exists f0, f1, f2, f3, f4, f5, f6, rest. reflexivity.
Qed.

Lemma payload_length (f6 : string) :
  (exists name snp_a info4, payload f6 name snp_a info4)
  <-> (5 <= length (Str.split TAB f6))%nat.
Proof.
  unfold payload. split.
  - intros (name & snp_a & info4 & _ & _ & H4).
    assert (4 < length (Str.split TAB f6))%nat
      by (apply nth_error_Some; congruence).
    lia.
  - intros H.
    destruct (nth_error (Str.split TAB f6) 2) as [name |] eqn:E2;
      [| apply nth_error_None in E2; lia].
    destruct (nth_error (Str.split TAB f6) 3) as [snp_a |] eqn:E3;
      [| apply nth_error_None in E3; lia].
    destruct (nth_error (Str.split TAB f6) 4) as [info4 |] eqn:E4;
      [| apply nth_error_None in E4; lia].
    exists name, snp_a, info4. repeat split.
Qed.

(** What a call of [filter_line] that returns has done. *)
Lemma filter_line_inv (l : list string) (w w' : world) (r : loc) :
  filter_line l w = (Ok r, w') ->
  exists f0 f1 f2 f3 f4 f5 f6 rest name snp_a info4,
    l = f0 :: f1 :: f2 :: f3 :: f4 :: f5 :: f6 :: rest
    /\ payload f6 name snp_a info4
    /\ r = fresh (dom (w_heap w))
    /\ w' = set_heap (<[r := extracted f0 f1 f2 f3 f4 name snp_a
                               (Str.rstrip_chars "]" info4)]> (w_heap w)) w.
Proof.
  intros Hrun.
  destruct (Nat.lt_ge_cases (length l) 7) as [Hlt | Hge].
  { rewrite (filter_line_short l w Hlt) in Hrun. discriminate Hrun. }
  destruct (seven_or_more l Hge) as (f0 & f1 & f2 & f3 & f4 & f5 & f6 & rest & ->).
  rewrite filter_line_longer in Hrun.
  destruct (filter_line_outcome f0 f1 f2 f3 f4 f5 f6 w)
    as [Hraise | (name & snp_a & info4 & Hp)].
  { rewrite Hraise in Hrun. discriminate Hrun. }
  rewrite (filter_line_seven f0 f1 f2 f3 f4 f5 f6 name snp_a info4 w Hp) in Hrun.
  injection Hrun as <- <-.
  exists f0, f1, f2, f3, f4, f5, f6, rest, name, snp_a, info4.
  split; [reflexivity |]. split; [exact Hp |]. split; reflexivity.
Qed.

(** The keys of the dict [filter_line] builds. *)
Definition record_keys : list string :=
  ["chrom"; "pos"; "ref_base"; "alleles"; "base_qualities"; "snp_name"; "snps"].

Lemma extracted_keys (f0 f1 f2 f3 f4 name snp_a snp_b key : string) :
  is_Some (extracted f0 f1 f2 f3 f4 name snp_a snp_b !! key) <-> In key record_keys.
Proof.
  unfold extracted, record_keys. split.
  - intros [v Hv].
    repeat match type of Hv with
           | <[?k := _]> _ !! key = _ =>
               destruct (decide (key = k)) as [-> | ?];
               [simpl; tauto | rewrite lookup_insert_ne in Hv by congruence]
           end.
    rewrite lookup_empty in Hv. discriminate Hv.
  - simpl. intros H.
    repeat (destruct H as [<- | H]; [eexists; reflexivity |]).
    destruct H.
Qed.

(** X7: [filter_line] returns a record exactly when the line has at
    least seven fields and field 6 has at least five tab-separated
    parts (four tabs or more); otherwise it raises [IndexError] and
    leaves the world as it was. *)
Theorem filter_line_returns_iff (l : list string) (w : world) :
  ((exists (r : loc) (w' : world), filter_line l w = (Ok r, w'))
   <-> (7 <= length l)%nat /\ (4 <= count_char TAB (nth 6 l ""))%nat)
  /\ ((length l < 7)%nat \/ (count_char TAB (nth 6 l "") < 4)%nat ->
      filter_line l w = (Raise IndexError, w)).
Proof.
  assert (Hshort : (length l < 7)%nat \/ (count_char TAB (nth 6 l "") < 4)%nat ->
                   filter_line l w = (Raise IndexError, w)).
  { intros [Hlt | Htab]; [apply filter_line_short, Hlt |].
    destruct (Nat.lt_ge_cases (length l) 7) as [Hlt | Hge];
      [apply filter_line_short, Hlt |].
    destruct (seven_or_more l Hge) as (f0 & f1 & f2 & f3 & f4 & f5 & f6 & rest & ->).
    cbn [nth] in Htab. rewrite filter_line_longer.
    destruct (filter_line_outcome f0 f1 f2 f3 f4 f5 f6 w) as [H | H]; [exact H |].
    apply payload_length in H. rewrite split_length in H. lia. }
  split; [split | exact Hshort].
  - intros (r & w' & Hrun).
    destruct (Nat.lt_ge_cases (length l) 7) as [Hlt | Hge].
    { rewrite (Hshort (or_introl Hlt)) in Hrun. discriminate Hrun. }
    split; [exact Hge |].
    destruct (Nat.lt_ge_cases (count_char TAB (nth 6 l "")) 4) as [Htab | Htab];
      [| exact Htab].
    rewrite (Hshort (or_intror Htab)) in Hrun. discriminate Hrun.
  - intros [Hge Htab].
    destruct (seven_or_more l Hge) as (f0 & f1 & f2 & f3 & f4 & f5 & f6 & rest & ->).
    cbn [nth] in Htab.
    assert (Hp : exists name snp_a info4, payload f6 name snp_a info4)
      by (apply payload_length; rewrite split_length; lia).
    destruct Hp as (name & snp_a & info4 & Hp).
    rewrite filter_line_longer.
    rewrite (filter_line_seven f0 f1 f2 f3 f4 f5 f6 name snp_a info4 w Hp).
    eauto.
Qed.

(** X8: a call of [filter_line] that returns has stored a new dict at
    an address that was not in use; the dict has the seven keys of the
    record and no other; every dict that was there is as before, and
    nothing is printed, written or drawn. *)
Theorem filter_line_allocates (l : list string) (w w' : world) (r : loc) :
  filter_line l w = (Ok r, w') ->
  w_heap w !! r = None
  /\ (exists d : gmap string value,
         w_heap w' !! r = Some d
         /\ forall key : string, is_Some (d !! key) <-> In key record_keys)
  /\ (forall r' : loc, r' <> r -> w_heap w' !! r' = w_heap w !! r')
  /\ w_stdout w' = w_stdout w /\ w_map w' = w_map w /\ w_ped w' = w_ped w
  /\ w_rng w' = w_rng w /\ w_draws w' = w_draws w.
Proof.
  intros Hrun.
  destruct (filter_line_inv l w w' r Hrun)
    as (f0 & f1 & f2 & f3 & f4 & f5 & f6 & rest & name & snp_a & info4
        & _ & _ & Hr & Hw).
  subst w'. unfold set_heap. cbn [w_heap w_stdout w_map w_ped w_rng w_draws].
  split.
  { rewrite Hr. apply not_elem_of_dom. apply is_fresh. }
  split.
  { eexists. split; [apply lookup_insert_eq |]. apply extracted_keys. }
  split; [| repeat split].
  intros r' Hne. rewrite lookup_insert_ne by congruence. reflexivity.
Qed.

Lemma all_chars_ext (p q : ascii -> bool) (s : string) :
  (forall c, p c = q c) -> all_chars p s = all_chars q s.
Proof.
  intros H. unfold all_chars.
  induction (list_ascii_of_string s) as [| c l IH]; [reflexivity |].
  cbn [forallb]. rewrite H, IH. reflexivity.
Qed.

(** X9: in the record a call of [filter_line] returns, the alleles
    are field 3 in upper case, without a letter [a] to [z]; the base
    qualities, the position and the reference base are fields 4, 1
    and 2 as they are; the SNP
    name is sub-field 2 of field 6; the second expected allele is
    sub-field 4 without its closing brackets at the end: what is
    dropped is brackets only, and what is kept does not end with one. *)
Theorem filter_line_record (l : list string) (w w' : world) (r : loc) :
  filter_line l w = (Ok r, w') ->
  let info_cols := Str.split TAB (nth 6 l "") in
  exists (d : gmap string value) (alleles snp_b brackets : string),
    w_heap w' !! r = Some d
    /\ d !! "alleles" = Some (PStr alleles)
    /\ alleles = Str.upper (nth 3 l "")
    /\ (forall (i : nat) (c : ascii),
           String.get i alleles = Some c -> ~ (97 <= nat_of_ascii c <= 122)%nat)
    /\ d !! "base_qualities" = Some (PStr (nth 4 l ""))
    /\ d !! "pos" = Some (PStr (nth 1 l ""))
    /\ d !! "ref_base" = Some (PStr (nth 2 l ""))
    /\ d !! "chrom" = Some (PStr (chrom_of (nth 0 l "")))
    /\ d !! "snp_name" = Some (PStr (nth 2 info_cols ""))
    /\ d !! "snps" = Some (PTuple (nth 3 info_cols "") snp_b)
    /\ nth 4 info_cols "" = snp_b ++ brackets
    /\ all_chars (fun c => Ascii.eqb c "]") brackets = true
    /\ (forall c : ascii, last_char snp_b = Some c -> c <> "]"%char).
Proof.
  intros Hrun info_cols.
  destruct (filter_line_inv l w w' r Hrun)
    as (f0 & f1 & f2 & f3 & f4 & f5 & f6 & rest & name & snp_a & info4
        & -> & (H2 & H3 & H4) & Hr & ->).
  subst info_cols. cbn [nth].
  rewrite (nth_error_nth _ _ "" H2), (nth_error_nth _ _ "" H3),
    (nth_error_nth _ _ "" H4).
  set (strip := fun c => existsb (Ascii.eqb c) (list_ascii_of_string "]")).
  destruct (rstrip_by_spec strip info4) as [(t & Hs & Ht) Hlast].
  exists (extracted f0 f1 f2 f3 f4 name snp_a (Str.rstrip_chars "]" info4)),
         (Str.upper f3), (Str.rstrip_chars "]" info4), t.
  split; [apply lookup_insert_eq |].
  split; [reflexivity |].
  split; [reflexivity |].
  split.
  { intros i c Hc. destruct (upper_get f3 i c Hc) as (c0 & H0 & ->).
    apply upper_char_not_lower. }
  do 6 (split; [reflexivity |]).
  split; [exact Hs |].
  split.
  { rewrite (all_chars_ext _ strip t); [exact Ht |].
    intros c. unfold strip. cbn [list_ascii_of_string existsb].
    rewrite orb_false_r. reflexivity. }
  intros c Hc ->. specialize (Hlast _ Hc). discriminate Hlast.
Qed.

(** X10: the chromosome name comes out unchanged exactly when it
    holds none of [chr], [OAR] and [Chr]; it never comes out longer. *)
Theorem chrom_of_unchanged_iff (s : string) :
  (chrom_of s = s
   <-> Str.contains "chr" s = false /\ Str.contains "OAR" s = false
       /\ Str.contains "Chr" s = false)
  /\ (String.length (chrom_of s) <= String.length s)%nat.
Proof.
  unfold chrom_of, Str.replace.
  set (s1 := Str.replace_from "chr" "" 0 s).
  set (s2 := Str.replace_from "OAR" "" 0 s1).
  set (s3 := Str.replace_from "Chr" "" 0 s2).
  pose proof (replace_from_shorter "chr" s 0) as L1. fold s1 in L1.
  pose proof (replace_from_shorter "OAR" s1 0) as L2. fold s2 in L2.
  pose proof (replace_from_shorter "Chr" s2 0) as L3. fold s3 in L3.
  split; [| lia]. split.
  - intros Heq. apply (f_equal String.length) in Heq.
    destruct (Str.contains "chr" s) eqn:E1.
    { pose proof (replace_from_present "c" "hr" s E1) as P1. fold s1 in P1.
      exfalso. clear E1. clearbody s1 s2 s3. lia. }
    assert (Hs1 : s1 = s) by (apply replace_from_absent, E1).
    destruct (Str.contains "OAR" s) eqn:E2.
    { rewrite <- Hs1 in E2.
      pose proof (replace_from_present "O" "AR" s1 E2) as P2. fold s2 in P2.
      exfalso. clear E1 E2. clearbody s1 s2 s3. lia. }
    assert (Hs2 : s2 = s)
      by (unfold s2; rewrite Hs1; apply replace_from_absent, E2).
    destruct (Str.contains "Chr" s) eqn:E3.
    { rewrite <- Hs2 in E3.
      pose proof (replace_from_present "C" "hr" s2 E3) as P3. fold s3 in P3.
      exfalso. clear E1 E2 E3. clearbody s1 s2 s3. lia. }
    repeat split.
  - intros (E1 & E2 & E3).
    assert (Hs1 : s1 = s) by (apply replace_from_absent, E1).
    assert (Hs2 : s2 = s)
      by (unfold s2; rewrite Hs1; apply replace_from_absent, E2).
    unfold s3. rewrite Hs2. apply replace_from_absent, E3.
Qed.

End ExtractionMore.

(** * More on the loop over the lines *)

Section LoopMore.

Variable base_min_quality : Z.

Lemma is_marker_dec (l : list string) : is_marker l \/ ~ is_marker l.
Proof.
  unfold is_marker.
  destruct (Nat.eq_dec (length l) 6%nat) as [H6 | H6]; [| right; tauto].
  destruct (nth_error l 0) as [f0 |] eqn:E0; [| right; intros [_ H]; discriminate H].
  destruct (String.eqb_spec f0 "[REDUCE") as [-> | Hne]; [left; tauto |].
  right. intros [_ H]. congruence.
Qed.

(** The three shapes of a list of fields. *)
Lemma fields_shape (l : list string) :
  length l = 7%nat \/ is_marker l \/ (length l <> 7%nat /\ ~ is_marker l).
Proof.
  destruct (Nat.eq_dec (length l) 7%nat) as [H7 | H7]; [left; exact H7 |].
  destruct (is_marker_dec l) as [Hm | Hm]; [right; left; exact Hm |].
  right. right. split; assumption.
Qed.

(** X11: the fields of a line are one more than its spaces, and
    joining them with spaces gives the line back; so [pileup_ok] takes
    a line, stripped on the right, for a data line exactly when it has
    six spaces, and raises the malformed-file error when it has neither
    six nor five. *)
Theorem line_shape_by_spaces (each_record : string) (w : world) :
  let line := Str.rstrip each_record in
  let cols := Str.split " " line in
  length cols = S (count_char " " line)
  /\ String.concat " " cols = line
  /\ (pileup_ok cols w = (Ok true, w) <-> count_char " " line = 6%nat)
  /\ (count_char " " line <> 6%nat -> count_char " " line <> 5%nat ->
      pileup_ok cols w = (Raise malformed, w)).
Proof.
  intros line cols.
  assert (Hlen : length cols = S (count_char " " line)) by apply split_length.
  split; [exact Hlen |].
  split; [apply (split_join " " line) |].
  split; [split |].
  - intros Hok.
    destruct (fields_shape cols) as [H7 | [Hm | [H7 Hm]]].
    + lia.
    + destruct (pileup_ok_marker cols w Hm) as (count & _ & H).
      rewrite H in Hok. discriminate Hok.
    + rewrite (pileup_ok_malformed cols w H7 Hm) in Hok. discriminate Hok.
  - intros H6. apply pileup_ok_seven. lia.
  - intros H6 H5. apply pileup_ok_malformed; [lia |].
    intros [Hm _]. lia.
Qed.

(** X12: white space at the end of a line (the newline, a carriage
    return, spaces, tabs) does not change what the round does. *)
Theorem trailing_space_ignored (each_record trailing : string)
        (counters : Z * Z) (w : world) :
  all_chars Str.is_space trailing = true ->
  parse_pileup_record base_min_quality (each_record ++ trailing) counters w
  = parse_pileup_record base_min_quality each_record counters w.
Proof.
  intros H. unfold parse_pileup_record, Str.rstrip.
  rewrite (rstrip_by_app Str.is_space each_record trailing H). reflexivity.
Qed.




(** Nothing was written, printed or drawn between two worlds. *)
Definition same_outputs (w w' : world) : Prop :=
  w_ped w' = w_ped w /\ w_map w' = w_map w /\ w_stdout w' = w_stdout w
  /\ w_draws w' = w_draws w.

(** The line the MAP file gets for a site. *)
Definition map_line_of (field0 name field1 : string) : string :=
  chrom_of field0 ++ one_char TAB ++ name ++ one_char TAB ++ "0" ++ one_char TAB
    ++ field1 ++ one_char NL.

(** What the PED file gets for a called allele, and the two messages
    of a rejection. *)
Definition ped_text_of (c : ascii) : string :=
  " " ++ one_char c ++ " " ++ one_char c.

Definition failed_message (name : string) : string := name ++ " failed filters".

Definition triallele_message (name : string) : string :=
  name ++ " possible tri-allele removed".

(** The five ways a round on a line of seven fields can end.  The
    lengths compared are those of the record: of field 3 in upper case
    and of field 4.  The allele called is what [find_max_base] returns
    on the filtered alleles with the generator as the round finds it. *)
Inductive round_detail (f0 f1 f3 f4 f6 : string) (g b : Z) (w : world)
  : outcome (Z * Z) * world -> Prop :=
| detail_no_payload :
    (count_char TAB f6 < 4)%nat ->
    round_detail f0 f1 f3 f4 f6 g b w (Raise IndexError, w)
| detail_mismatch (name snp_a info4 : string) (w' : world) :
    payload f6 name snp_a info4 ->
    String.length (Str.upper f3) <> String.length f4 ->
    same_outputs w w' ->
    round_detail f0 f1 f3 f4 f6 g b w
      (Raise (SystemExit ("Error: Quals and bases differ at " ++ name ++ " stopping.")),
       w')
| detail_failed (name snp_a info4 : string) (w' : world) :
    payload f6 name snp_a info4 ->
    String.length (Str.upper f3) = String.length f4 ->
    fst (keep_pairs base_min_quality (Str.upper f3) f4) = EmptyString ->
    w_ped w' = w_ped w -> w_map w' = w_map w ->
    w_stdout w' = (w_stdout w ++ [failed_message name])%list ->
    w_draws w' = w_draws w ->
    round_detail f0 f1 f3 f4 f6 g b w (Ok (g, b + 1), w')
| detail_accepted (name snp_a info4 : string) (c : ascii) (w' : world) :
    payload f6 name snp_a info4 ->
    String.length (Str.upper f3) = String.length f4 ->
    (0 < count_char c (fst (keep_pairs base_min_quality (Str.upper f3) f4)))%nat ->
    (forall c' : ascii,
        (count_char c' (fst (keep_pairs base_min_quality (Str.upper f3) f4))
         <= count_char c (fst (keep_pairs base_min_quality (Str.upper f3) f4)))%nat) ->
    one_char c = snp_a \/ one_char c = Str.rstrip_chars "]" info4 ->
    w_ped w' = (w_ped w ++ [ped_text_of c])%list ->
    w_map w' = (w_map w ++ [map_line_of f0 name f1])%list ->
    w_stdout w' = w_stdout w ->
    w_draws w' = S (w_draws w) ->
    round_detail f0 f1 f3 f4 f6 g b w (Ok (g + 1, b), w')
| detail_triallele (name snp_a info4 : string) (c : ascii) (w' : world) :
    payload f6 name snp_a info4 ->
    String.length (Str.upper f3) = String.length f4 ->
    find_max_base (PStr (fst (keep_pairs base_min_quality (Str.upper f3) f4))) w
    = (Ok (PStr (one_char c)), drawn w) ->
    (0 < count_char c (fst (keep_pairs base_min_quality (Str.upper f3) f4)))%nat ->
    (forall c' : ascii,
        (count_char c' (fst (keep_pairs base_min_quality (Str.upper f3) f4))
         <= count_char c (fst (keep_pairs base_min_quality (Str.upper f3) f4)))%nat) ->
    one_char c <> snp_a -> one_char c <> Str.rstrip_chars "]" info4 ->
    w_ped w' = w_ped w -> w_map w' = w_map w ->
    w_stdout w' = (w_stdout w ++ [triallele_message name])%list ->
    w_draws w' = S (w_draws w) ->
    round_detail f0 f1 f3 f4 f6 g b w (Ok (g, b + 1), w').

Lemma parse_pileup_record_detail (each_record f0 f1 f2 f3 f4 f5 f6 : string)
      (g b : Z) (w : world) :
  Str.split " " (Str.rstrip each_record) = [f0; f1; f2; f3; f4; f5; f6] ->
  round_detail f0 f1 f3 f4 f6 g b w
    (parse_pileup_record base_min_quality each_record (g, b) w).
Proof.
  intros Hcols. unfold parse_pileup_record. rewrite Hcols.
  rewrite (bind_ok _ _ _ _ _
             (pileup_ok_seven [f0; f1; f2; f3; f4; f5; f6] w eq_refl)).
  destruct (filter_line_outcome f0 f1 f2 f3 f4 f5 f6 w)
    as [Hraise | (name & snp_a & info4 & Hp)].
  { rewrite (bind_raise _ _ _ _ _ Hraise). apply detail_no_payload.
    destruct (Nat.lt_ge_cases (count_char TAB f6) 4) as [Hlt | Hge]; [exact Hlt |].
    exfalso.
    assert (Hex : exists name snp_a info4, payload f6 name snp_a info4)
      by (apply payload_length; rewrite split_length; lia).
    destruct Hex as (n & a & i & Hp).
    rewrite (filter_line_seven f0 f1 f2 f3 f4 f5 f6 n a i w Hp) in Hraise.
    discriminate Hraise. }
  rewrite (bind_ok _ _ _ _ _ (filter_line_seven f0 f1 f2 f3 f4 f5 f6 _ _ _ w Hp)).
  set (snp_b := Str.rstrip_chars "]" info4).
  set (d1 := extracted f0 f1 f2 f3 f4 name snp_a snp_b).
  set (r := fresh (dom (w_heap w))).
  set (w1 := set_heap (<[r := d1]> (w_heap w)) w).
  assert (Hr : w_heap w1 !! r = Some d1) by apply lookup_insert_eq.
  assert (Ha : d1 !! "alleles" = Some (PStr (Str.upper f3))) by reflexivity.
  assert (Hq : d1 !! "base_qualities" = Some (PStr f4)) by reflexivity.
  assert (Hn : d1 !! "snp_name" = Some (PStr name)) by reflexivity.
  destruct (Nat.eq_dec (String.length (Str.upper f3)) (String.length f4))
    as [Hlen | Hlen].
  2:{ rewrite (bind_raise _ _ _ _ _
                 (check_bases_mismatch base_min_quality r d1 _ _ _ w1 Hr Ha Hq Hn
                    (not_eq_sym Hlen))).
      apply (detail_mismatch _ _ _ _ _ _ _ _ name snp_a info4 w1 Hp Hlen).
      repeat split. }
  rewrite (bind_ok _ _ _ _ _
             (check_bases_keep_pairs base_min_quality r d1 _ _ w1 Hr Ha Hq Hlen)).
  remember (fst (keep_pairs base_min_quality (Str.upper f3) f4)) as na eqn:Ena.
  set (nq := snd (keep_pairs base_min_quality (Str.upper f3) f4)).
  set (w2 := stored r d1 na nq w1).
  destruct (record_lookups f0 f1 f2 f3 f4 name snp_a snp_b na nq)
    as (La & Ln & Ls & Lc & Lp).
  fold d1 in La, Ln, Ls, Lc, Lp.
  assert (Hr2 : w_heap w2 !! r
                = Some (<["alleles" := PStr na]> (<["base_qualities" := PStr nq]> d1)))
    by apply stored_lookup.
  rewrite (bind_ok _ _ _ _ _ (dict_get_ok _ _ _ _ _ Hr2 La)).
  cbn [py_len].
  destruct na as [| c0 na'].
  - cbn [String.length Nat.eqb negb].
    rewrite (bind_ok _ _ _ _ _ (dict_get_ok _ _ _ _ _ Hr2 Ln)).
    cbn [py_format].
    rewrite (bind_ok _ _ w2 (printed (name ++ " failed filters") w2) tt)
      by reflexivity.
    apply (detail_failed _ _ _ _ _ _ _ _ name snp_a info4 _ Hp Hlen);
      [symmetry; exact Ena | reflexivity ..].
  - cbn [String.length Nat.eqb negb].
    rewrite (bind_ok _ _ _ _ _ (dict_get_ok _ _ _ _ _ Hr2 La)).
    destruct (find_max_base_chars (String c0 na') w2) as (c & Hrun & Hpos & Hmax);
      [discriminate |].
    assert (Hcall : find_max_base (PStr (String c0 na')) w
                    = (Ok (PStr (one_char c)), drawn w))
      by (apply (find_max_base_same_draw _ _ w2 w);
          [discriminate | reflexivity | reflexivity | exact Hrun]).
    rewrite Ena in Hpos, Hmax, Hcall.
    rewrite (bind_ok _ _ _ _ _ Hrun).
    rewrite (bind_ok _ _ _ _ _ (dict_get_ok r _ _ _ (drawn w2) Hr2 Ls)).
    rewrite (bind_ok _ _ _ _ _ (allele_check_pair snp_a snp_b (one_char c) _)).
    destruct (String.eqb (one_char c) snp_a || String.eqb (one_char c) snp_b)
      eqn:Ematch.
    + cbn [py_format].
      set (ped_text := " " ++ one_char c ++ " " ++ one_char c).
      set (w3 := World (w_heap w2) (w_stdout w2) (w_map w2)
                       (w_ped w2 ++ [ped_text]) (w_rng w2) (S (w_draws w2))).
      rewrite (bind_ok _ _ (drawn w2) w3 tt) by reflexivity.
      rewrite (bind_ok _ _ _ _ _ (dict_get_ok r _ _ _ w3 Hr2 Lc)).
      rewrite (bind_ok _ _ _ _ _ (dict_get_ok r _ _ _ w3 Hr2 Ln)).
      rewrite (bind_ok _ _ _ _ _ (dict_get_ok r _ _ _ w3 Hr2 Lp)).
      cbn [py_format].
      rewrite (bind_ok _ _ w3 (World (w_heap w3) (w_stdout w3)
                                     (w_map w3 ++ [map_line_of f0 name f1]) (w_ped w3)
                                     (w_rng w3) (w_draws w3)) tt)
        by reflexivity.
      apply orb_true_iff in Ematch. rewrite !String.eqb_eq in Ematch.
      apply (detail_accepted _ _ _ _ _ _ _ _ name snp_a info4 c _ Hp Hlen);
        try reflexivity; try assumption.
    + rewrite (bind_ok _ _ _ _ _ (dict_get_ok r _ _ _ (drawn w2) Hr2 Ln)).
      cbn [py_format].
      rewrite (bind_ok _ _ (drawn w2)
                 (printed (name ++ " possible tri-allele removed") (drawn w2)) tt)
        by reflexivity.
      apply orb_false_iff in Ematch as [E1 E2].
      apply String.eqb_neq in E1, E2.
      apply (detail_triallele _ _ _ _ _ _ _ _ name snp_a info4 c _ Hp Hlen);
        try reflexivity; try assumption.
Qed.


(** X14: when a line of seven fields is rejected (the rejected counter
    grows), neither file is written and exactly one message is printed:
    the failed-filters message when no (allele, quality) pair passes
    the filter, without a draw of the generator; otherwise the
    tri-allele message, after one draw, the called allele (what
    [find_max_base] returns on the filtered alleles with the generator
    as the round finds it, an allele that no filtered allele of the
    line outnumbers) being neither of the two expected alleles. *)
Theorem rejected_site_reason (each_record f0 f1 f2 f3 f4 f5 f6 : string)
        (g b : Z) (w w' : world) :
  Str.split " " (Str.rstrip each_record) = [f0; f1; f2; f3; f4; f5; f6] ->
  parse_pileup_record base_min_quality each_record (g, b) w = (Ok (g, b + 1), w') ->
  w_ped w' = w_ped w /\ w_map w' = w_map w
  /\ exists name snp_a info4 : string,
      payload f6 name snp_a info4
      /\ ((fst (keep_pairs base_min_quality (Str.upper f3) f4) = EmptyString
           /\ w_stdout w' = (w_stdout w ++ [failed_message name])%list
           /\ w_draws w' = w_draws w)
          \/ (exists c : ascii,
                 find_max_base
                   (PStr (fst (keep_pairs base_min_quality (Str.upper f3) f4))) w
                 = (Ok (PStr (one_char c)), drawn w)
                 /\ (0 < count_char c
                           (fst (keep_pairs base_min_quality (Str.upper f3) f4)))%nat
                 /\ (forall c' : ascii,
                        (count_char c'
                           (fst (keep_pairs base_min_quality (Str.upper f3) f4))
                         <= count_char c
                              (fst (keep_pairs base_min_quality (Str.upper f3) f4)))%nat)
                 /\ one_char c <> snp_a
                 /\ one_char c <> Str.rstrip_chars "]" info4
                 /\ w_stdout w' = (w_stdout w ++ [triallele_message name])%list
                 /\ w_draws w' = S (w_draws w))).
Proof.
  intros Hcols Hrun.
  pose proof (parse_pileup_record_detail each_record f0 f1 f2 f3 f4 f5 f6 g b w Hcols)
    as Hd.
  rewrite Hrun in Hd.
  inversion Hd as [ | | name snp_a info4 w0 Hp _ Hnone Hped Hmap Hout Hdraw
                  | name snp_a info4 c w0 _ _ _ _ _ _ _ _ _ Hg
                  | name snp_a info4 c w0 Hp _ Hcall Hpos Hmax Ha Hb Hped Hmap Hout
                      Hdraw];
    subst; try (exfalso; lia).
  - split; [exact Hped |]. split; [exact Hmap |].
    exists name, snp_a, info4. split; [exact Hp |]. left. repeat split; assumption.
  - split; [exact Hped |]. split; [exact Hmap |].
    exists name, snp_a, info4. split; [exact Hp |]. right.
    exists c. split; [exact Hcall |]. split; [exact Hpos |].
    split; [exact Hmax |]. repeat split; assumption.
Qed.


(** Between two worlds the PED file got [n] more texts and the MAP
    file [n] more lines, after what they held, and some lines were
    printed after those that were. *)
Definition extends (n : nat) (w w' : world) : Prop :=
  exists (texts lines printed : list string),
    w_ped w' = (w_ped w ++ texts)%list
    /\ w_map w' = (w_map w ++ lines)%list
    /\ w_stdout w' = (w_stdout w ++ printed)%list
    /\ length texts = n /\ length lines = n.

Lemma extends_refl (w w' : world) (printed : list string) :
  w_ped w' = w_ped w -> w_map w' = w_map w ->
  w_stdout w' = (w_stdout w ++ printed)%list ->
  extends 0 w w'.
Proof.
  intros Hp Hm Ho. exists [], [], printed.
  rewrite !List.app_nil_r. repeat split; assumption.
Qed.

Lemma extends_trans (n m : nat) (w w1 w2 : world) :
  extends n w w1 -> extends m w1 w2 -> extends (n + m) w w2.
Proof.
  intros (t1 & l1 & p1 & Hp1 & Hm1 & Ho1 & Ht1 & Hl1)
         (t2 & l2 & p2 & Hp2 & Hm2 & Ho2 & Ht2 & Hl2).
  exists (t1 ++ t2)%list, (l1 ++ l2)%list, (p1 ++ p2)%list.
  rewrite Hp2, Hp1, Hm2, Hm1, Ho2, Ho1, <- !List.app_assoc, !List.length_app.
  repeat split; lia.
Qed.

(** Whether a line has seven fields, and how many lines of a file
    have. *)
Definition is_data_line (each_record : string) : bool :=
  (length (Str.split " " (Str.rstrip each_record)) =? 7)%nat.

Definition data_lines (records : list string) : nat :=
  length (List.filter is_data_line records).

(** One round, as the loop sees it. *)
Lemma round_extends (each_record : string) (g b : Z) (w : world) :
  match parse_pileup_record base_min_quality each_record (g, b) w with
  | (Ok (g', b'), w') =>
      (is_data_line each_record = true
       /\ ((g' = g + 1 /\ b' = b /\ extends 1 w w')
           \/ (g' = g /\ b' = b + 1 /\ extends 0 w w')))
      \/ (is_data_line each_record = false /\ g' = g /\ b' = b /\ extends 0 w w')
  | (Raise _, w') => extends 0 w w'
  end.
Proof.
  destruct (parse_pileup_record base_min_quality each_record (g, b) w)
    as [[[g' b'] | e] w'] eqn:Hrun.
  - destruct (fields_shape (Str.split " " (Str.rstrip each_record)))
      as [H7 | [Hm | [H7 Hm]]].
    + left. split; [unfold is_data_line; rewrite H7; reflexivity |].
      destruct (seven_fields _ H7) as (f0 & f1 & f2 & f3 & f4 & f5 & f6 & Hcols).
      pose proof (parse_pileup_record_detail each_record f0 f1 f2 f3 f4 f5 f6 g b w
                    Hcols) as Hd.
      rewrite Hrun in Hd.
      inversion Hd as [ | | name snp_a info4 w0 _ _ _ Hped Hmap Hout _
                      | name snp_a info4 c w0 _ _ _ _ _ Hped Hmap Hout _
                      | name snp_a info4 c w0 _ _ _ _ _ _ _ Hped Hmap Hout _]; subst.
      * right. split; [reflexivity |]. split; [reflexivity |].
        exact (extends_refl _ _ _ Hped Hmap Hout).
      * left. split; [reflexivity |]. split; [reflexivity |].
        exists [ped_text_of c], [map_line_of f0 name f1], [].
        rewrite List.app_nil_r. repeat split; assumption.
      * right. split; [reflexivity |]. split; [reflexivity |].
        exact (extends_refl _ _ _ Hped Hmap Hout).
    + right.
      destruct (parse_pileup_record_marker base_min_quality each_record g b w Hm)
        as (count & _ & H).
      rewrite H in Hrun. injection Hrun as <- <- <-.
      destruct Hm as [H6 _].
      split; [unfold is_data_line; rewrite H6; reflexivity |].
      split; [reflexivity |]. split; [reflexivity |].
      apply (extends_refl _ _ [reduce_notice count]); reflexivity.
    + exfalso. unfold parse_pileup_record in Hrun.
      rewrite (bind_raise _ _ _ _ _ (pileup_ok_malformed _ w H7 Hm)) in Hrun.
      discriminate Hrun.
  - destruct (fields_shape (Str.split " " (Str.rstrip each_record)))
      as [H7 | [Hm | [H7 Hm]]].
    + destruct (seven_fields _ H7) as (f0 & f1 & f2 & f3 & f4 & f5 & f6 & Hcols).
      pose proof (parse_pileup_record_detail each_record f0 f1 f2 f3 f4 f5 f6 g b w
                    Hcols) as Hd.
      rewrite Hrun in Hd.
      inversion Hd as [Htab | name snp_a info4 w0 _ _ (Hp & Hm & Ho & _) | | | ];
        subst.
      * apply (extends_refl _ _ []); try reflexivity.
        rewrite List.app_nil_r. reflexivity.
      * apply (extends_refl _ _ []); [exact Hp | exact Hm |].
        rewrite List.app_nil_r. exact Ho.
    + destruct (parse_pileup_record_marker base_min_quality each_record g b w Hm)
        as (count & _ & H).
      rewrite H in Hrun. discriminate Hrun.
    + unfold parse_pileup_record in Hrun.
      rewrite (bind_raise _ _ _ _ _ (pileup_ok_malformed _ w H7 Hm)) in Hrun.
      injection Hrun as <- <-.
      apply (extends_refl _ _ []); try reflexivity.
      rewrite List.app_nil_r. reflexivity.
Qed.

(** The whole loop, as [parse_pileup_file] sees it. *)
Lemma run_extends (records : list string) :
  forall (g b : Z) (w : world),
    match parse_pileup_lines base_min_quality records (g, b) w with
    | (Ok (g', b'), w') =>
        g <= g' /\ b <= b'
        /\ (g' - g) + (b' - b) = Z.of_nat (data_lines records)
        /\ extends (Z.to_nat (g' - g)) w w'
    | (Raise _, w') => exists n, extends n w w'
    end.
Proof.
  unfold parse_pileup_lines.
  induction records as [| x records IH]; intros g b w.
  - cbn [for_each]. unfold ret, data_lines. cbn [List.filter length].
    split; [lia |]. split; [lia |]. split; [lia |].
    rewrite Z.sub_diag. apply (extends_refl _ _ []); try reflexivity.
    rewrite List.app_nil_r. reflexivity.
  - cbn [for_each]. unfold bind at 1.
    pose proof (round_extends x g b w) as Hround.
    destruct (parse_pileup_record base_min_quality x (g, b) w)
      as [[[g1 b1] | e] w1].
    + specialize (IH g1 b1 w1).
      destruct (for_each records (parse_pileup_record base_min_quality) (g1, b1) w1)
        as [[[g' b'] | e] w'].
      * destruct IH as (Hg & Hb & Hsum & Hext).
        unfold data_lines in *. cbn [List.filter].
        destruct Hround as [(Hd & [(-> & -> & H1) | (-> & -> & H1)])
                           | (Hd & -> & -> & H1)];
          rewrite Hd; cbn [length];
          (split; [lia |]); (split; [lia |]); (split; [lia |]).
        -- replace (Z.to_nat (g' - g)) with (1 + Z.to_nat (g' - (g + 1)))%nat by lia.
           exact (extends_trans _ _ _ _ _ H1 Hext).
        -- exact (extends_trans 0 _ _ _ _ H1 Hext).
        -- exact (extends_trans 0 _ _ _ _ H1 Hext).
      * destruct IH as (n & Hext).
        destruct Hround as [(_ & [(_ & _ & H1) | (_ & _ & H1)]) | (_ & _ & _ & H1)];
          eexists; exact (extends_trans _ _ _ _ _ H1 Hext).
    + exists 0%nat. exact Hround.
Qed.

(** X16: when the loop over the lines of a file ends without an
    exception, neither counter has gone down, the two counters have
    grown together by the number of lines of seven fields, and the
    accepted counter has grown by the number of texts the PED file got
    and by the number of lines the MAP file got; what the files held
    before is still there. *)
Theorem run_counts_match_outputs (records : list string) (g b g' b' : Z)
        (w w' : world) :
  parse_pileup_lines base_min_quality records (g, b) w = (Ok (g', b'), w') ->
  g <= g' /\ b <= b'
  /\ (g' - g) + (b' - b) = Z.of_nat (data_lines records)
  /\ exists texts lines : list string,
      w_ped w' = (w_ped w ++ texts)%list
      /\ w_map w' = (w_map w ++ lines)%list
      /\ Z.of_nat (length texts) = g' - g
      /\ Z.of_nat (length lines) = g' - g.
Proof.
  intros Hrun. pose proof (run_extends records g b w) as H.
  rewrite Hrun in H.
  destruct H as (Hg & Hb & Hsum & (texts & lines & printed & Hp & Hm & _ & Ht & Hl)).
  split; [exact Hg |]. split; [exact Hb |]. split; [exact Hsum |].
  exists texts, lines. split; [exact Hp |]. split; [exact Hm |]. lia.
Qed.

(** X17: however the loop ends, also by an exception in the middle of
    a file, what the two files and the output held before is still
    there, and the PED file has got as many texts as the MAP file has
    got lines. *)
Theorem run_files_in_step (records : list string) (g b : Z) (w w' : world)
        (out : outcome (Z * Z)) :
  parse_pileup_lines base_min_quality records (g, b) w = (out, w') ->
  exists texts lines printed : list string,
    w_ped w' = (w_ped w ++ texts)%list
    /\ w_map w' = (w_map w ++ lines)%list
    /\ w_stdout w' = (w_stdout w ++ printed)%list
    /\ length texts = length lines.
Proof.
  intros Hrun. pose proof (run_extends records g b w) as H.
  rewrite Hrun in H.
  assert (Hext : exists n, extends n w w').
  { destruct out as [[g' b'] | e]; [| exact H].
    destruct H as (_ & _ & _ & Hext). eexists. exact Hext. }
  destruct Hext as (n & texts & lines & printed & Hp & Hm & Ho & Ht & Hl).
  exists texts, lines, printed. repeat (split; [assumption |]). lia.
Qed.

(** The first text of the PED file and the summary printed last. *)
Definition ped_header (sample : string) : string :=
  sample ++ " " ++ sample ++ " 0 0 0 -9".

Definition summary_of (file_base : string) (ct_good ct_bad : Z) : string :=
  "Analysis finished wrote " ++ format_thousands ct_good
    ++ " SNPs to output files removed " ++ format_thousands ct_bad
    ++ "." ++ one_char NL ++ "Output PED ---> " ++ file_base ++ ".ped"
    ++ one_char NL ++ "Output MAP ---> " ++ file_base ++ ".map".

(** What the loop prints: the notice of a marker line and the two
    messages of a rejection. *)
Definition loop_message (m : string) : Prop :=
  (exists count : string, m = reduce_notice count)
  \/ (exists name : string, m = failed_message name)
  \/ (exists name : string, m = triallele_message name).

Lemma last_char_app (s t : string) :
  last_char (s ++ t)
  = match last_char t with
    | Some c => Some c
    | None => last_char s
    end.
Proof.
  induction s as [| a s IH]; [rewrite str_app_nil_l; destruct (last_char t); reflexivity |].
  rewrite str_app_cons. cbn [last_char]. rewrite IH.
  destruct s as [| a' s].
  - rewrite str_app_nil_l. destruct t as [| b t]; [reflexivity |].
    destruct (last_char (String b t)) eqn:E; [reflexivity |].
    exfalso. clear IH. revert b E. induction t as [| b' t IHt]; intros b E.
    + discriminate E.
    + apply (IHt b'). exact E.
  - rewrite str_app_cons. destruct (last_char t); reflexivity.
Qed.

(** The summary ends with the name of the MAP file, a message of the
    loop does not: no message of the loop is a summary. *)
Lemma loop_message_not_summary (m file_base : string) (ct_good ct_bad : Z) :
  loop_message m -> m <> summary_of file_base ct_good ct_bad.
Proof.
  intros Hm E. apply (f_equal last_char) in E.
  unfold summary_of in E. rewrite !last_char_app in E. cbn [last_char] in E.
  destruct Hm as [(count & ->) | [(name & ->) | (name & ->)]];
    unfold reduce_notice, failed_message, triallele_message in E;
    rewrite !last_char_app in E; cbn [last_char] in E; discriminate E.
Qed.

(** One round prints messages of the loop only. *)
Lemma round_prints (each_record : string) (g b : Z) (w : world) :
  exists printed : list string,
    w_stdout (snd (parse_pileup_record base_min_quality each_record (g, b) w))
    = (w_stdout w ++ printed)%list
    /\ Forall loop_message printed.
Proof.
  destruct (fields_shape (Str.split " " (Str.rstrip each_record)))
    as [H7 | [Hm | [H7 Hm]]].
  - destruct (seven_fields _ H7) as (f0 & f1 & f2 & f3 & f4 & f5 & f6 & Hcols).
    pose proof (parse_pileup_record_detail each_record f0 f1 f2 f3 f4 f5 f6 g b w
                  Hcols) as Hd.
    destruct (parse_pileup_record base_min_quality each_record (g, b) w)
      as [out w'].
    cbn [snd].
    inversion Hd as [Htab
                    | name snp_a info4 w0 _ _ (_ & _ & Hout & _)
                    | name snp_a info4 w0 _ _ _ _ _ Hout _
                    | name snp_a info4 c w0 _ _ _ _ _ _ _ Hout _
                    | name snp_a info4 c w0 _ _ _ _ _ _ _ _ _ Hout _]; subst.
    + exists []. rewrite List.app_nil_r. split; [reflexivity | constructor].
    + exists []. rewrite List.app_nil_r. split; [exact Hout | constructor].
    + exists [failed_message name]. split; [exact Hout |].
      constructor; [| constructor]. right. left. exists name. reflexivity.
    + exists []. rewrite List.app_nil_r. split; [exact Hout | constructor].
    + exists [triallele_message name]. split; [exact Hout |].
      constructor; [| constructor]. right. right. exists name. reflexivity.
  - destruct (parse_pileup_record_marker base_min_quality each_record g b w Hm)
      as (count & _ & H).
    rewrite H. exists [reduce_notice count]. split; [reflexivity |].
    constructor; [| constructor]. left. exists count. reflexivity.
  - unfold parse_pileup_record.
    rewrite (bind_raise _ _ _ _ _ (pileup_ok_malformed _ w H7 Hm)).
    exists []. rewrite List.app_nil_r. split; [reflexivity | constructor].
Qed.

(** So does the whole loop, however it ends. *)
Lemma run_prints (records : list string) :
  forall (g b : Z) (w : world),
    exists printed : list string,
      w_stdout (snd (parse_pileup_lines base_min_quality records (g, b) w))
      = (w_stdout w ++ printed)%list
      /\ Forall loop_message printed.
Proof.
  unfold parse_pileup_lines.
  induction records as [| x records IH]; intros g b w.
  - exists []. rewrite List.app_nil_r. split; [reflexivity | constructor].
  - cbn [for_each]. unfold bind at 1.
    destruct (round_prints x g b w) as (p1 & H1 & F1).
    destruct (parse_pileup_record base_min_quality x (g, b) w)
      as [[[g1 b1] | e] w1]; cbn [snd] in H1.
    + destruct (IH g1 b1 w1) as (p2 & H2 & F2).
      exists (p1 ++ p2)%list. rewrite H2, H1, <- List.app_assoc.
      split; [reflexivity |]. apply Forall_app. split; assumption.
    + exists p1. split; [exact H1 | exact F1].
Qed.

(** X18: a whole conversion starts both files afresh (what they held
    is gone).  When it ends without an exception, the PED file holds
    the header, one text per accepted site and the final newline, the
    MAP file one line per accepted site, the two counters add up to the
    number of lines of seven fields, and the summary with the two
    counters and the two file names is the last line printed.  When it
    ends with an exception, the PED file holds the header and one text
    per MAP line, without the final newline, and no summary is
    printed: all that has been printed is notices of marker lines and
    messages of rejected sites, none of which is a summary. *)
Theorem conversion_outcome (pileup_file : string) (records : list string)
        (sample : string) (w w' : world) (out : outcome unit) :
  parse_pileup_file pileup_file records sample base_min_quality w = (out, w') ->
  exists calls lines printed : list string,
    w_map w' = lines
    /\ length calls = length lines
    /\ Forall loop_message printed
    /\ (forall (file_base : string) (ct_good ct_bad : Z),
           ~ In (summary_of file_base ct_good ct_bad) printed)
    /\ match out with
       | Ok _ =>
           exists ct_good ct_bad : Z,
             w_ped w' = ped_header sample :: (calls ++ [one_char NL])%list
             /\ Z.of_nat (length lines) = ct_good
             /\ 0 <= ct_bad
             /\ ct_good + ct_bad = Z.of_nat (data_lines records)
             /\ w_stdout w'
                = (w_stdout w ++ printed
                     ++ [summary_of (Str.replace ".pileup" "" pileup_file)
                           ct_good ct_bad])%list
       | Raise _ =>
           w_ped w' = ped_header sample :: calls
           /\ w_stdout w' = (w_stdout w ++ printed)%list
       end.
Proof.
  intros Hfile. unfold parse_pileup_file in Hfile.
  set (wa := World (w_heap w) (w_stdout w) [] [] (w_rng w) (w_draws w)) in *.
  set (wb := World (w_heap w) (w_stdout w) [] [ped_header sample]
                   (w_rng w) (w_draws w)) in *.
  rewrite (bind_ok _ _ w wa tt) in Hfile by reflexivity.
  rewrite (bind_ok _ _ wa wb tt) in Hfile by reflexivity.
  pose proof (run_extends records 0 0 wb) as Hrun.
  destruct (run_prints records 0 0 wb) as (printed & Hprinted & Hmsg).
  assert (Hnone : forall (file_base : string) (ct_good ct_bad : Z),
             ~ In (summary_of file_base ct_good ct_bad) printed).
  { intros file_base ct_good ct_bad Hin.
    rewrite List.Forall_forall in Hmsg.
    exact (loop_message_not_summary _ file_base ct_good ct_bad (Hmsg _ Hin) eq_refl). }
  destruct (parse_pileup_lines base_min_quality records (0, 0) wb)
    as [[[g b] | e] w1] eqn:Hloop; cbn [snd] in Hprinted.
  - rewrite (bind_ok _ _ _ _ _ Hloop) in Hfile.
    destruct Hrun as (Hg & Hb & Hsum & (texts & lines & _ & Hp & Hm & _ & Ht & Hl)).
    cbn [w_ped w_map w_stdout wb] in Hp, Hm, Hprinted.
    rewrite (bind_ok _ _ w1 (World (w_heap w1) (w_stdout w1) (w_map w1)
                                   (w_ped w1 ++ [one_char NL]) (w_rng w1)
                                   (w_draws w1)) tt) in Hfile by reflexivity.
    cbn [fst snd] in Hfile. unfold print in Hfile.
    injection Hfile as <- <-. cbn [w_ped w_map w_stdout].
    exists texts, lines, printed.
    split; [rewrite Hm; reflexivity |]. split; [lia |].
    split; [exact Hmsg |]. split; [exact Hnone |].
    exists g, b. rewrite Hp, Hprinted.
    split; [reflexivity |]. split; [lia |]. split; [lia |]. split; [lia |].
    rewrite <- List.app_assoc. reflexivity.
  - rewrite (bind_raise _ _ _ _ _ Hloop) in Hfile.
    injection Hfile as <- <-.
    destruct Hrun as (n & texts & lines & _ & Hp & Hm & _ & Ht & Hl).
    cbn [w_ped w_map w_stdout wb] in Hp, Hm, Hprinted.
    exists texts, lines, printed.
    split; [rewrite Hm; reflexivity |]. split; [lia |].
    split; [exact Hmsg |]. split; [exact Hnone |].
    split; [exact Hp | exact Hprinted].
Qed.

End LoopMore.

(** * The numbers of the summary *)

From Stdlib Require Import DecimalN DecimalPos.

Section SummaryNumbers.

(** A text without its commas. *)
Definition drop_commas (s : string) : string :=
  string_of_list_ascii
    (List.filter (fun c => negb (Ascii.eqb c ",")) (list_ascii_of_string s)).

Definition no_comma (l : list ascii) : Prop :=
  Forall (fun c => Ascii.eqb c "," = false) l.

Lemma digits_no_comma (d : Decimal.uint) :
  no_comma (list_ascii_of_string (NilEmpty.string_of_uint d)).
Proof.
  unfold no_comma.
  induction d; cbn [NilEmpty.string_of_uint list_ascii_of_string];
    constructor; try reflexivity; assumption.
Qed.

Lemma group_thousands_commas (l : list ascii) :
  forall k : nat,
    no_comma l ->
    List.filter (fun c => negb (Ascii.eqb c ",")) (group_thousands l k) = l.
Proof.
  induction l as [| c l IH]; intros k H; [reflexivity |].
  apply List.Forall_cons_iff in H as [Hc Hl].
  destruct k as [| k]; cbn [group_thousands List.filter].
  - change (Ascii.eqb "," ",") with true. cbn [negb].
    rewrite Hc. cbn [negb]. rewrite (IH 2%nat Hl). reflexivity.
  - rewrite Hc. cbn [negb]. rewrite (IH k Hl). reflexivity.
Qed.

Lemma group_thousands_length (l : list ascii) :
  forall k : nat,
    length (group_thousands l k) = (length l + (length l + 2 - k) / 3)%nat.
Proof.
  induction l as [| c l IH]; intros k.
  - cbn [group_thousands length]. destruct k as [| [| [| k]]]; reflexivity.
  - destruct k as [| k]; cbn [group_thousands length].
    + rewrite (IH 2%nat).
      replace (S (length l) + 2 - 0)%nat with (length l + 2 - 2 + 1 * 3)%nat by lia.
      rewrite Nat.div_add by lia. lia.
    + rewrite (IH k).
      replace (S (length l) + 2 - S k)%nat with (length l + 2 - k)%nat by lia.
      lia.
Qed.

Lemma no_comma_rev (l : list ascii) : no_comma l -> no_comma (rev l).
Proof. unfold no_comma. apply List.Forall_rev. Qed.

(** X19: the format of a counter in the summary reads back as the
    counter: without its commas it is the decimal text of the number,
    and it has one comma for every three digits after the first
    digit. *)
Theorem format_thousands_reads_back (z : Z) :
  0 <= z ->
  let digits := NilZero.string_of_uint (N.to_uint (Z.to_N z)) in
  drop_commas (format_thousands z) = digits
  /\ option_map (fun d => Z.of_N (N.of_uint d))
       (NilZero.uint_of_string (drop_commas (format_thousands z)))
     = Some z
  /\ String.length (format_thousands z)
     = (String.length digits + (String.length digits - 1) / 3)%nat.
Proof.
  intros Hz digits.
  assert (Hnil : N.to_uint (Z.to_N z) <> Decimal.Nil).
  { destruct (Z.to_N z) as [| p]; [discriminate |].
    apply Unsigned.to_uint_nonnil. }
  assert (Hdigits : digits = NilEmpty.string_of_uint (N.to_uint (Z.to_N z))).
  { unfold digits, NilZero.string_of_uint.
    destruct (N.to_uint (Z.to_N z)); try reflexivity. congruence. }
  assert (Hfmt : format_thousands z
                 = string_of_list_ascii
                     (rev (group_thousands (rev (list_ascii_of_string digits)) 3))).
  { unfold format_thousands. rewrite Znat.Zabs2N.abs_N_nonneg by exact Hz.
    fold digits. destruct (Z.ltb_spec z 0); [lia | reflexivity]. }
  assert (Hdrop : drop_commas (format_thousands z) = digits).
  { rewrite Hfmt. unfold drop_commas.
    rewrite list_ascii_of_string_of_list_ascii.
    rewrite <- (List.rev_involutive
                  (List.filter _ (rev (group_thousands _ 3)))).
    rewrite <- List.filter_rev, List.rev_involutive.
    rewrite group_thousands_commas
      by (apply no_comma_rev; rewrite Hdigits; apply digits_no_comma).
    rewrite List.rev_involutive. apply string_of_list_ascii_of_string. }
  split; [exact Hdrop |]. split.
  - rewrite Hdrop. unfold digits. rewrite (NilZero.usu _ Hnil).
    cbn [option_map]. rewrite DecimalN.Unsigned.of_to.
    rewrite Znat.Z2N.id by exact Hz. reflexivity.
  - rewrite Hfmt.
    assert (Hlen : forall l, String.length (string_of_list_ascii l) = length l)
      by (induction l as [| c l IH]; simpl; [reflexivity | now rewrite IH]).
    assert (Hlen' : forall s, length (list_ascii_of_string s) = String.length s)
      by (induction s as [| c s IH]; simpl; [reflexivity | now rewrite IH]).
    rewrite Hlen, List.length_rev, group_thousands_length, List.length_rev, Hlen'.
    replace (String.length digits + 2 - 3)%nat with (String.length digits - 1)%nat
      by lia.
    reflexivity.
Qed.

End SummaryNumbers.

(** * The further theorems on concrete inputs *)

Section ExamplesMore.

(** A record in which every pair passes the threshold 30. *)
Definition clean_record : gmap string value :=
  extracted "chr1" "100" "A" "AG" "FF" "rs1" "A" "G".

Definition clean_world : world :=
  set_heap (<[0%nat := clean_record]> empty) world0.

(** A record without base qualities. *)
Definition bare_record : gmap string value :=
  <["alleles" := PStr "AG"]> empty.

Definition bare_world : world :=
  set_heap (<[0%nat := bare_record]> empty) world0.

(** A line whose qualities are all below the threshold 30. *)
Definition low_line : string :=
  "chr1 100 A AAAAG ##### x " ++ example_payload.

Lemma check_bases_survivors_pass_witness :
  exists (w' : world) (d' : gmap string value) (na nq : string),
    check_bases 0%nat 30 example_world = (Ok 0%nat, w')
    /\ w_heap w' !! 0%nat = Some d'
    /\ d' !! "alleles" = Some (PStr na)
    /\ d' !! "base_qualities" = Some (PStr nq)
    /\ String.length na = String.length nq
    /\ (String.length na <= String.length "AANGG")%nat.
Proof.
  destruct (check_bases_survivors_pass 30 0%nat example_record "AANGG" "F#FFF"
              example_world eq_refl eq_refl eq_refl eq_refl)
    as (w' & d' & na & nq & H1 & H2 & H3 & H4 & H5 & H6 & _).
  exists w', d', na, nq. repeat split; assumption.
Defined.

Lemma check_bases_two_thresholds_witness :
  (let* r1 := check_bases 0%nat 20 in check_bases r1 30) example_world
  = check_bases 0%nat (Z.max 20 30) example_world.
Proof.
  apply (check_bases_two_thresholds 20 30 0%nat example_record "AANGG" "F#FFF"
           example_world eq_refl eq_refl eq_refl eq_refl).
Defined.

Lemma check_bases_missing_key_witness :
  check_bases 0%nat 30 bare_world = (Raise (KeyError "base_qualities"), bare_world).
Proof.
  apply (proj1 (check_bases_missing_key 30 0%nat bare_record bare_world eq_refl)).
  reflexivity.
Defined.

Lemma check_bases_nothing_to_drop_witness :
  check_bases 0%nat 30 clean_world = (Ok 0%nat, clean_world).
Proof.
  apply (check_bases_nothing_to_drop 30 0%nat clean_record "AG" "FF" clean_world
           eq_refl eq_refl eq_refl eq_refl).
  intros i a q Ha Hq.
  destruct i as [| [| i]]; simpl in Ha, Hq; try discriminate Ha;
    injection Ha as <-; injection Hq as <-;
    (split; [vm_compute; discriminate | auto]).
Defined.

Lemma find_max_base_returns_iff_witness :
  (exists (x : value) (w' : world), find_max_base (PStr "AAG") world0 = (Ok x, w'))
  /\ find_max_base (PStr "") world0 = (Raise IndexError, world0).
Proof.
  split.
  - apply (proj1 (find_max_base_returns_iff "AAG" world0)). discriminate.
  - apply (proj2 (find_max_base_returns_iff "" world0)). reflexivity.
Defined.

Lemma find_max_base_any_tied_witness :
  exists i : nat,
    forall w : world,
      w_rng w (w_draws w) = i ->
      find_max_base (PStr "AAGG") w = (Ok (PStr (one_char "G")), drawn w).
Proof.
  apply (find_max_base_any_tied "AAGG" "G").
  - change (count_char "G" "AAGG") with 2%nat. lia.
  - intros c'. change (count_char "G" "AAGG") with 2%nat.
    destruct (Ascii.eqb_spec c' "A") as [-> | HA];
      [change (count_char "A" "AAGG") with 2%nat; lia |].
    cbn [count_char]. apply Ascii.eqb_neq in HA. rewrite HA.
    destruct (Ascii.eqb c' "G"); lia.
Defined.

Lemma filter_line_returns_iff_witness :
  (exists (r : loc) (w' : world),
      filter_line ["chr1"; "100"; "A"; "AG"; "FF"; "x"; example_payload] world0
      = (Ok r, w'))
  /\ filter_line ["chr1"; "100"; "A"; "AG"; "FF"; "x"] world0
     = (Raise IndexError, world0).
Proof.
  split.
  - apply (proj1 (filter_line_returns_iff _ world0)). split; simpl; lia.
  - apply (proj2 (filter_line_returns_iff _ world0)). left. simpl. lia.
Defined.

Lemma filter_line_allocates_witness :
  w_heap example_world !! 1%nat = None
  /\ exists w' : world,
      filter_line ["chr1"; "100"; "A"; "AG"; "FF"; "x"; example_payload] example_world
      = (Ok 1%nat, w')
      /\ w_heap w' !! 0%nat = w_heap example_world !! 0%nat
      /\ w_draws w' = w_draws example_world.
Proof.
  set (l := ["chr1"; "100"; "A"; "AG"; "FF"; "x"; example_payload]).
  set (w' := snd (filter_line l example_world)).
  assert (Hrun : filter_line l example_world = (Ok 1%nat, w'))
    by (vm_compute; reflexivity).
  destruct (filter_line_allocates l example_world w' 1%nat Hrun)
    as (Hnew & _ & Hold & _ & _ & _ & _ & Hdraws).
  split; [exact Hnew |].
  exists w'. split; [exact Hrun |]. split; [apply Hold; discriminate | exact Hdraws].
Defined.

Lemma filter_line_record_witness :
  exists (w' : world) (d : gmap string value),
    filter_line ["chr1"; "100"; "A"; "aaNGg"; "F#FFF"; "x"; example_payload] world0
    = (Ok 0%nat, w')
    /\ w_heap w' !! 0%nat = Some d
    /\ d !! "alleles" = Some (PStr "AANGG")
    /\ d !! "base_qualities" = Some (PStr "F#FFF")
    /\ d !! "chrom" = Some (PStr "1")
    /\ d !! "snp_name" = Some (PStr "rs1").
Proof.
  set (l := ["chr1"; "100"; "A"; "aaNGg"; "F#FFF"; "x"; example_payload]).
  set (w' := snd (filter_line l world0)).
  assert (Hrun : filter_line l world0 = (Ok 0%nat, w'))
    by (vm_compute; reflexivity).
  destruct (filter_line_record l world0 w' 0%nat Hrun)
    as (d & alleles & snp_b & brackets & Hd & Ha & -> & _ & Hq & _ & _ & Hc & Hn & _).
  exists w', d.
  split; [exact Hrun |]. split; [exact Hd |]. split; [exact Ha |].
  split; [exact Hq |].
  split; [exact Hc | exact Hn].
Defined.

Lemma chrom_of_unchanged_iff_witness : chrom_of "21" = "21".
Proof. apply (proj1 (chrom_of_unchanged_iff "21")). repeat split. Defined.

Lemma line_shape_by_spaces_witness :
  pileup_ok (Str.split " " (Str.rstrip example_line)) world0 = (Ok true, world0)
  /\ pileup_ok (Str.split " " (Str.rstrip "chr1  100 A AAAAG FFFFF x y")) world0
     = (Raise malformed, world0).
Proof.
  split.
  - apply (proj1 (proj2 (proj2 (line_shape_by_spaces example_line world0)))).
    reflexivity.
  - apply (proj2 (proj2 (proj2 (line_shape_by_spaces
                                  "chr1  100 A AAAAG FFFFF x y" world0))));
      simpl; lia.
Defined.

Lemma trailing_space_ignored_witness :
  parse_pileup_record 30 ("chr1 100 A AAAAG FFFFF x " ++ example_payload
                            ++ String "013" (String "010" "")) (0, 0) world0
  = parse_pileup_record 30 ("chr1 100 A AAAAG FFFFF x " ++ example_payload)
      (0, 0) world0.
Proof.
  rewrite <- (trailing_space_ignored 30
                ("chr1 100 A AAAAG FFFFF x " ++ example_payload)
                (String "013" (String "010" "")) (0, 0) world0 eq_refl).
  rewrite str_app_assoc. reflexivity.
Defined.


Lemma low_line_fields :
  Str.split " " (Str.rstrip low_line)
  = ["chr1"; "100"; "A"; "AAAAG"; "#####"; "x"; example_payload].
Proof. reflexivity. Qed.


(** A line whose alleles are all [T], which is not expected. *)
Definition odd_line : string :=
  "chr1 100 A TTTTT FFFFF x " ++ example_payload.

Lemma odd_line_fields :
  Str.split " " (Str.rstrip odd_line)
  = ["chr1"; "100"; "A"; "TTTTT"; "FFFFF"; "x"; example_payload].
Proof. reflexivity. Qed.

Lemma rejected_site_reason_witness :
  (exists w' : world,
      parse_pileup_record 30 low_line (0, 0) world0 = (Ok (0, 0 + 1), w')
      /\ w_ped w' = w_ped world0 /\ w_map w' = w_map world0)
  /\ (exists (w' : world) (c : ascii),
         parse_pileup_record 30 odd_line (0, 0) world0 = (Ok (0, 0 + 1), w')
         /\ find_max_base (PStr "TTTTT") world0 = (Ok (PStr (one_char c)), drawn world0)
         /\ c = "T"%char
         /\ w_ped w' = w_ped world0 /\ w_map w' = w_map world0
         /\ w_draws w' = S (w_draws world0)).
Proof.
  split.
  - set (w' := snd (parse_pileup_record 30 low_line (0, 0) world0)).
    assert (Hrun : parse_pileup_record 30 low_line (0, 0) world0
                   = (Ok (0, 0 + 1), w'))
      by (vm_compute; reflexivity).
    destruct (rejected_site_reason 30 low_line _ _ _ _ _ _ _ 0 0 world0 w'
                low_line_fields Hrun)
      as (Hped & Hmap & _).
    exists w'. split; [exact Hrun |]. split; [exact Hped | exact Hmap].
  - set (w' := snd (parse_pileup_record 30 odd_line (0, 0) world0)).
    assert (Hrun : parse_pileup_record 30 odd_line (0, 0) world0
                   = (Ok (0, 0 + 1), w'))
      by (vm_compute; reflexivity).
    destruct (rejected_site_reason 30 odd_line _ _ _ _ _ _ _ 0 0 world0 w'
                odd_line_fields Hrun)
      as (Hped & Hmap & name & snp_a & info4 & _
          & [(Hnone & _) | (c & Hcall & _ & _ & _ & _ & _ & Hdraw)]).
    + discriminate Hnone.
    + change (fst (keep_pairs 30 (Str.upper "TTTTT") "FFFFF")) with "TTTTT" in Hcall.
      exists w', c. split; [exact Hrun |]. split; [exact Hcall |].
      split.
      { assert (Hc : find_max_base (PStr "TTTTT") world0
                     = (Ok (PStr "T"), drawn world0)) by reflexivity.
        rewrite Hc in Hcall. injection Hcall as Hc'. symmetry. exact Hc'. }
      split; [exact Hped |]. split; [exact Hmap | exact Hdraw].
Defined.


Lemma run_counts_match_outputs_witness :
  exists (w' : world) (texts lines : list string),
    parse_pileup_lines 30 [example_line; "[REDUCE a b c d 12"; low_line] (0, 0) world0
    = (Ok (1, 1), w')
    /\ w_ped w' = (w_ped world0 ++ texts)%list
    /\ w_map w' = (w_map world0 ++ lines)%list
    /\ Z.of_nat (length texts) = 1 - 0
    /\ Z.of_nat (length lines) = 1 - 0.
Proof.
  set (records := [example_line; "[REDUCE a b c d 12"; low_line]).
  set (w' := snd (parse_pileup_lines 30 records (0, 0) world0)).
  assert (Hrun : parse_pileup_lines 30 records (0, 0) world0 = (Ok (1, 1), w'))
    by (vm_compute; reflexivity).
  destruct (run_counts_match_outputs 30 records 0 0 1 1 world0 w' Hrun)
    as (_ & _ & _ & texts & lines & Hp & Hm & Ht & Hl).
  exists w', texts, lines.
  split; [exact Hrun |]. split; [exact Hp |]. split; [exact Hm |].
  split; [exact Ht | exact Hl].
Defined.

Lemma run_files_in_step_witness :
  exists (w' : world) (texts lines printed : list string),
    parse_pileup_lines 30 [example_line; "chr1 100 A AAAAG FFFFF"; example_line]
      (0, 0) world0
    = (Raise malformed, w')
    /\ w_ped w' = (w_ped world0 ++ texts)%list
    /\ w_map w' = (w_map world0 ++ lines)%list
    /\ w_stdout w' = (w_stdout world0 ++ printed)%list
    /\ length texts = length lines.
Proof.
  set (records := [example_line; "chr1 100 A AAAAG FFFFF"; example_line]).
  set (w' := snd (parse_pileup_lines 30 records (0, 0) world0)).
  assert (Hrun : parse_pileup_lines 30 records (0, 0) world0 = (Raise malformed, w'))
    by (vm_compute; reflexivity).
  destruct (run_files_in_step 30 records 0 0 world0 w' _ Hrun)
    as (texts & lines & printed & H).
  exists w', texts, lines, printed. split; [exact Hrun | exact H].
Defined.

Lemma conversion_outcome_witness :
  (exists (w' : world) (calls lines : list string),
      parse_pileup_file "sample.pileup" [example_line; low_line] "XXX" 30 example_world
      = (Ok tt, w')
      /\ w_map w' = lines
      /\ length calls = length lines
      /\ exists ct_good ct_bad : Z,
          w_ped w' = ped_header "XXX" :: (calls ++ [one_char NL])%list
          /\ ct_good + ct_bad = Z.of_nat (data_lines [example_line; low_line]))
  /\ (exists (w' : world) (calls printed : list string),
         parse_pileup_file "sample.pileup" [low_line; "chr1 100 A"] "XXX" 30
           example_world
         = (Raise malformed, w')
         /\ w_ped w' = ped_header "XXX" :: calls
         /\ w_stdout w' = (w_stdout example_world ++ printed)%list
         /\ forall (file_base : string) (ct_good ct_bad : Z),
              ~ In (summary_of file_base ct_good ct_bad) printed).
Proof.
  split.
  - set (records := [example_line; low_line]).
    set (w' := snd (parse_pileup_file "sample.pileup" records "XXX" 30 example_world)).
    assert (Hrun : parse_pileup_file "sample.pileup" records "XXX" 30 example_world
                   = (Ok tt, w'))
      by (vm_compute; reflexivity).
    destruct (conversion_outcome 30 "sample.pileup" records "XXX" example_world w' _
                Hrun)
      as (calls & lines & printed & Hm & Hlen & _ & _ & g & b & Hp & _ & _ & Hsum & _).
    exists w', calls, lines. split; [exact Hrun |]. split; [exact Hm |].
    split; [exact Hlen |]. exists g, b. split; assumption.
  - set (records := [low_line; "chr1 100 A"]).
    set (w' := snd (parse_pileup_file "sample.pileup" records "XXX" 30 example_world)).
    assert (Hrun : parse_pileup_file "sample.pileup" records "XXX" 30 example_world
                   = (Raise malformed, w'))
      by (vm_compute; reflexivity).
    destruct (conversion_outcome 30 "sample.pileup" records "XXX" example_world w' _
                Hrun)
      as (calls & lines & printed & _ & _ & _ & Hnone & Hp & Ho).
    exists w', calls, printed. split; [exact Hrun |]. split; [exact Hp |].
    split; [exact Ho | exact Hnone].
Defined.

Lemma format_thousands_reads_back_witness :
  drop_commas (format_thousands 1234567) = "1234567"
  /\ option_map (fun d => Z.of_N (N.of_uint d))
       (NilZero.uint_of_string (drop_commas (format_thousands 1234567)))
     = Some 1234567
  /\ String.length (format_thousands 1234567) = 9%nat.
Proof.
  apply (format_thousands_reads_back 1234567). lia.
Defined.

End ExamplesMore.
